(** * Energy corrections and their provenance ledger (pymatgen.entries.compatibility)

    A shallow embedding of [src/pymatgen/entries/compatibility.py]: the
    correction rules, [CorrectionsList.get_corrections_dict],
    [Compatibility.process_entry] with its in-place merge into
    [entry.data["energy_adjustments"]], [validate_corrections],
    [process_entries] and [get_explanation_dict].

    Conventions of the embedding.
    - Python numbers (floats and the integer literal 0) are idealised as
      exact integers [Z] (an energy in a fixed small unit) wherever only
      the values that are computed, added or recorded matter: [+], [-],
      [*], [==] and truthiness are then exact.  Where the outcome of the
      additions themselves matters (the invariant that [correction] is
      the sum of the Ledger), [process_entry] and [validate_corrections]
      are modelled a second time on binary64 floats, with the Ledger in
      insertion order: module [Binary64].
    - A Python object that is mutated in place is a state that is passed
      along; an exception keeps the state reached when it was raised.
    - [warnings.warn] appends to a log that is part of every run.
    - An entry owns its [data] dict and the dicts nested in it.

    [AqueousCorrection] and [MaterialsProjectAqueousCompatibility] (which
    need division and rounding) and the printing of [Compatibility.explain]
    are not covered. *)

From Stdlib Require Import ZArith String List Lia Sorted PrimFloat.
From stdpp Require Import base option list gmap strings fin_maps.

Local Open Scope Z_scope.
Local Open Scope string_scope.

(** ** Exceptions, warnings and the run monad *)

Inductive exn : Type :=
  | CompatibilityError
  | ValueError
  | KeyError
  | TypeError
  | AttributeError
  | IndexError
  | ZeroDivisionError.

Inductive result (A : Type) : Type :=
  | Ok (a : A)
  | Raise (x : exn).
Arguments Ok {A} a.
Arguments Raise {A} x.

(** The two [warnings.warn] sites of the module.  The warning of
    [validate_corrections] carries the two numbers it compares: exact
    ones, or binary64 floats where the engine is modelled in floating
    point. *)
Inductive Warning : Type :=
  | UnknownProvenance (correction documented : Z)
  | NoStructureOrOxideType
  | UnknownProvenance64 (correction documented : float).

Record Run (S A : Type) : Type := mkRun {
  run_state : S;
  run_warnings : list Warning;
  run_result : result A
}.
Arguments mkRun {S A} _ _ _.
Arguments run_state {S A} _.
Arguments run_warnings {S A} _.
Arguments run_result {S A} _.

Definition M (S A : Type) : Type := S -> Run S A.

Definition ret {S A} (a : A) : M S A := fun s => mkRun s [] (Ok a).

Definition raise {S A} (x : exn) : M S A := fun s => mkRun s [] (Raise x).

Definition bind {S A B} (m : M S A) (f : A -> M S B) : M S B := fun s =>
  let r := m s in
  match run_result r with
  | Ok a =>
      let r' := f a (run_state r) in
      mkRun (run_state r') (run_warnings r ++ run_warnings r') (run_result r')
  | Raise x => mkRun (run_state r) (run_warnings r) (Raise x)
  end.

Notation "'do' x <- m ; k" := (bind m (fun x => k))
  (at level 10, x name, m at level 100, k at level 200).
Notation "'do_' m ; k" := (bind m (fun _ => k))
  (at level 10, m at level 100, k at level 200).

Definition get {S} : M S S := fun s => mkRun s [] (Ok s).
Definition modify {S} (f : S -> S) : M S unit := fun s => mkRun (f s) [] (Ok tt).
Definition warn {S} (w : Warning) : M S unit := fun s => mkRun s [w] (Ok tt).

(** A computation that only reads its argument (it may warn and raise,
    it has no state to change): what a correction rule is. *)
Definition Reader (A : Type) : Type := M unit A.

Definition reading {S A} (f : S -> Reader A) : M S A := fun s =>
  let r := f s tt in mkRun s (run_warnings r) (run_result r).

(** [try: m  except CompatibilityError: h] *)
Definition try_except_CompatibilityError {S A} (m h : M S A) : M S A := fun s =>
  let r := m s in
  match run_result r with
  | Raise CompatibilityError =>
      let r' := h (run_state r) in
      mkRun (run_state r') (run_warnings r ++ run_warnings r') (run_result r')
  | _ => r
  end.

(** [for x in xs: body(x)], stopping at the first exception. *)
Fixpoint for_each {S A} (xs : list A) (body : A -> M S unit) : M S unit :=
  match xs with
  | [] => ret tt
  | x :: xs' => do_ body x; for_each xs' body
  end.

(** ** Python dictionaries whose iteration order matters

    [d[k] = v] keeps the position of a key that is already there and
    appends a new key. *)
Fixpoint dict_setitem {V} (k : string) (v : V) (d : list (string * V))
  : list (string * V) :=
  match d with
  | [] => [(k, v)]
  | (k', v') :: d' =>
      if String.eqb k' k then (k, v) :: d' else (k', v') :: dict_setitem k v d'
  end.

Fixpoint dict_get {V} (k : string) (d : list (string * V)) : option V :=
  match d with
  | [] => None
  | (k', v') :: d' => if String.eqb k' k then Some v' else dict_get k d'
  end.

(** ** Data model *)

(** Modelled from the spec: the composition abstraction
    (pymatgen.core.composition and periodic_table are not part of the
    sources at hand).  It supplies the element membership test, the
    per-element atom count, the total atom count and the reduced-formula
    string; [formula_units] is the number of reduced formulas the
    composition holds (total atom count divided by the reduced formula's
    atom count).  [X] is the element's electronegativity. *)
Record Element : Type := mkElement {
  symbol : string;
  X : Z
}.

Record Composition : Type := mkComposition {
  el_amt : list (Element * Z);
  reduced_formula : string;
  formula_units : Z
}.

Definition elements (comp : Composition) : list Element := (el_amt comp).*1.

(** [comp[sym]]: zero for an element that is not there *)
Fixpoint amount_of (sym : string) (l : list (Element * Z)) : Z :=
  match l with
  | [] => 0
  | (el, n) :: l' => if String.eqb (symbol el) sym then n else amount_of sym l'
  end.

Definition comp_getitem (comp : Composition) (sym : string) : Z :=
  amount_of sym (el_amt comp).

(** [Element(sym) in comp] *)
Definition comp_contains (comp : Composition) (sym : string) : bool :=
  existsb (fun el => String.eqb (symbol el) sym) (elements comp).

(** [len(comp)] *)
Definition comp_len (comp : Composition) : nat := length (el_amt comp).

Definition num_atoms (comp : Composition) : Z :=
  foldr (fun p acc => p.2 + acc) 0 (el_amt comp).

(** Modelled from the spec: the oxidation/sulfide-subtype classifier
    (pymatgen.analysis.structure_analyzer is not part of the sources at
    hand).  A structure is represented by what [sulfide_type(structure)]
    and [oxide_type(structure, 1.05, return_nbonds=True)] return on it. *)
Record Structure : Type := mkStructure {
  sulfide_type_of : string;
  oxide_type_of : string;
  nbonds_of : Z
}.

(** [entry.parameters], with the keys the rules read. *)
Record Parameters : Type := mkParameters {
  run_type : option string;
  hubbards : option (gmap string Z);
  potcar_spec : option (list (gmap string string));
  potcar_symbols : option (list string)
}.

(** [entry.data], with the keys the module reads or writes.  The Ledger
    [energy_adjustments] is a dict of dicts of numbers:
    [validate_corrections] calls [.items()] on every value of the outer
    dict and adds up every value of the inner ones, so nothing else gets
    past it. *)
Record Data : Type := mkData {
  energy_adjustments : option (gmap string (gmap string Z));
  oxide_type : option string;
  sulfide_type : option string
}.

(** A ComputedEntry ([structure] is there for a ComputedStructureEntry:
    [hasattr(entry, "structure")]). *)
Record Entry : Type := mkEntry {
  entry_id : option string;
  composition : Composition;
  uncorrected_energy : Z;
  correction : Z;
  parameters : Parameters;
  data : Data;
  structure : option Structure
}.

(** [entry.energy] *)
Definition energy (e : Entry) : Z := uncorrected_energy e + correction e.

Definition set_correction (c : Z) (e : Entry) : Entry :=
  mkEntry (entry_id e) (composition e) (uncorrected_energy e) c
          (parameters e) (data e) (structure e).

Definition set_energy_adjustments
    (l : option (gmap string (gmap string Z))) (e : Entry) : Entry :=
  mkEntry (entry_id e) (composition e) (uncorrected_energy e) (correction e)
          (parameters e)
          (mkData l (oxide_type (data e)) (sulfide_type (data e)))
          (structure e).

(** ** Truthiness and dynamic comparison *)

(** The values [entry.data["energy_adjustments"].get(k)] can take. *)
Inductive pyval : Type :=
  | PyNone
  | PyNum (x : Z)
  | PyDict (d : gmap string Z).

(** [a == b] *)
Definition py_eq (a b : pyval) : bool :=
  match a, b with
  | PyNone, PyNone => true
  | PyNum x, PyNum y => Z.eqb x y
  | PyDict d1, PyDict d2 => bool_decide (d1 = d2)
  | _, _ => false
  end.

(** ["{:.3f}".format(a)]: only a number has that format.  The text it
    produces is not modelled. *)
Definition format_3f {S} (a : pyval) : M S unit :=
  match a with
  | PyNum _ => ret tt
  | _ => raise TypeError
  end.

Definition dict_truthy {K V} `{Countable K} (o : option (gmap K V)) : bool :=
  match o with
  | Some d => negb (bool_decide (d = ∅))
  | None => false
  end.

Definition num_truthy (o : option Z) : bool :=
  match o with
  | Some z => negb (Z.eqb z 0)
  | None => false
  end.

Definition str_truthy (o : option string) : bool :=
  match o with
  | Some s => negb (String.eqb s "")
  | None => false
  end.

Definition list_truthy {A} (o : option (list A)) : bool :=
  match o with
  | Some (_ :: _) => true
  | _ => false
  end.

(** ** Compatibility: validation, the merge into the Ledger, processing *)

(** The abstract class: [clean], the name of the class of the instance
    ([self.__class__.__name__], the source key of the Ledger) and the
    abstract method [get_corrections_dict], whose dict is iterated in
    insertion order. *)
Record Compatibility : Type := mkCompatibility {
  clean : bool;
  class_name : string;
  get_corrections_dict : Entry -> Reader (list (string * Z))
}.

(** The two nested loops of [validate_corrections], adding into one
    accumulator. *)
Definition sum_adjustments (adj : gmap string (gmap string Z)) : Z :=
  map_fold (fun _ v1 acc => map_fold (fun _ v2 acc' => acc' + v2) acc v1) 0 adj.

Definition documented_correction (e : Entry) : Z :=
  if dict_truthy (energy_adjustments (data e))
  then sum_adjustments (default ∅ (energy_adjustments (data e)))
  else 0.

(** The warning text divides by [entry.composition.num_atoms]. *)
Definition validate_corrections : M Entry unit :=
  do entry <- get;
  if negb (Z.eqb (correction entry) (documented_correction entry)) then
    if Z.eqb (num_atoms (composition entry)) 0 then raise ZeroDivisionError
    else warn (UnknownProvenance (correction entry) (documented_correction entry))
  else ret tt.

(** [entry.data["energy_adjustments"].get(k)]: a lookup in the OUTER dict *)
Definition outer_get (adj : gmap string (gmap string Z)) (k : string) : pyval :=
  match adj !! k with
  | Some d => PyDict d
  | None => PyNone
  end.

(** [entry.correction += v], then the Ledger as it is after the write *)
Definition apply_adjustment (v : Z) (adj : gmap string (gmap string Z))
  : M Entry unit :=
  modify (fun entry =>
    set_energy_adjustments (Some adj) (set_correction (correction entry + v) entry)).

(** The body of the loop [for k, v in corrections.items()] of
    [process_entry]; [cls] is [self.__class__.__name__].  The three tests
    are truthiness tests of [.get(..)]; the comparison with [v] reads
    [entry.data["energy_adjustments"].get(k)]; the message of the
    CompatibilityError is formatted, with ["{:.3f}"] for that value and for
    [v], before the exception is raised. *)
Definition merge_adjustment (cls k : string) (v : Z) : M Entry unit :=
  do entry <- get;
  if dict_truthy (energy_adjustments (data entry)) then
    let adj := default ∅ (energy_adjustments (data entry)) in
    if dict_truthy (adj !! cls) then
      let inner := default ∅ (adj !! cls) in
      if num_truthy (inner !! k) then
        if py_eq (outer_get adj k) (PyNum v) then
          (* we already applied this exact correction. Do nothing. *)
          ret tt
        else
          do_ format_3f (outer_get adj k);
          do_ format_3f (PyNum v);
          raise CompatibilityError
      else
        (* entry.data["energy_adjustments"][cls][k] = v *)
        apply_adjustment v (<[cls := <[k := v]> inner]> adj)
    else
      (* entry.data["energy_adjustments"][cls] = {k: v} *)
      apply_adjustment v (<[cls := {[k := v]}]> adj)
  else
    (* entry.data["energy_adjustments"] = {cls: {k: v}} *)
    apply_adjustment v {[cls := {[k := v]}]}.

Definition clean_entry (entry : Entry) : Entry :=
  set_energy_adjustments None (set_correction 0 entry).

Definition process_entry (self : Compatibility) : M Entry (option Entry) :=
  do_ (if clean self then modify clean_entry else ret tt);
  do_ validate_corrections;
  try_except_CompatibilityError
    (do corrections <- reading (get_corrections_dict self);
     do_ for_each corrections
           (fun kv => merge_adjustment (class_name self) kv.1 kv.2);
     do entry <- get;
     ret (Some entry))
    (ret None).

(** *** A batch of entries

    The entries of a batch are objects: a sequence may hold the same
    object twice.  A heap maps references to entries. *)
Definition Heap : Type := nat -> Entry.

Definition upd (h : Heap) (l : nat) (e : Entry) : Heap :=
  fun l' => if Nat.eqb l' l then e else h l'.

Definition at_ref {A} (l : nat) (m : M Entry A) : M Heap A := fun h =>
  let r := m (h l) in
  mkRun (upd h l (run_state r)) (run_warnings r) (run_result r).

(** [self.process_entry(entry)] on a reference: the entry itself or [None] *)
Definition process_entry_ref (self : Compatibility) (l : nat)
  : M Heap (option nat) :=
  do r <- at_ref l (process_entry self);
  ret (match r with Some _ => Some l | None => None end).

(** [list(filter(None, map(self.process_entry, entries)))]: an entry
    object is truthy, [None] is not. *)
Fixpoint process_entries (self : Compatibility) (entries : list nat)
  : M Heap (list nat) :=
  match entries with
  | [] => ret []
  | l :: ls =>
      do r <- process_entry_ref self l;
      do rest <- process_entries self ls;
      ret (match r with Some l' => l' :: rest | None => rest end)
  end.

(** ** Correction rules *)

(** What a [Correction] offers: [get_correction], [str(c)] and the
    description the explanation shows (the class docstring up to "Args",
    stripped; the rules below carry its first sentence only, no property
    reads it). *)
Record Correction : Type := mkCorrection {
  get_correction : Entry -> Reader Z;
  str : string;
  description : string
}.

(** [[f(x) for x in xs]] *)
Fixpoint comprehension {S A B} (xs : list A) (f : A -> M S B) : M S (list B) :=
  match xs with
  | [] => ret []
  | x :: xs' =>
      do y <- f x;
      do ys <- comprehension xs' f;
      ret (y :: ys)
  end.

(** [d[k]] on a dict *)
Definition getitem {S V} (d : gmap string V) (k : string) : M S V :=
  match d !! k with
  | Some v => ret v
  | None => raise KeyError
  end.

(** *** str.split() *)

Definition is_space (c : Ascii.ascii) : bool :=
  let n := Ascii.nat_of_ascii c in
  (Nat.eqb n 32 || (Nat.leb 9 n && Nat.leb n 13) || (Nat.leb 28 n && Nat.leb n 31))%bool.

Fixpoint py_split_from (s tok : string) : list string :=
  match s with
  | EmptyString => if String.eqb tok "" then [] else [tok]
  | String c s' =>
      if is_space c then
        if String.eqb tok "" then py_split_from s' ""
        else tok :: py_split_from s' ""
      else py_split_from s' (tok ++ String c "")
  end.

Definition py_split (s : string) : list string := py_split_from s "".

(** [o.split()[1]], where [o] may be [None] *)
Definition split_1 {S} (o : option string) : M S string :=
  match o with
  | None => raise AttributeError
  | Some s =>
      match py_split s !! 1%nat with
      | Some w => ret w
      | None => raise IndexError
      end
  end.

(** *** PotcarCorrection *)

Record PotcarCorrection : Type := mkPotcarCorrection {
  valid_potcars : gmap string string;
  check_hash : bool;
  input_set_name : string
}.

Definition psp_settings (self : PotcarCorrection) (entry : Entry)
  : Reader (gset (option string)) :=
  let spec := potcar_spec (parameters entry) in
  if check_hash self then
    if list_truthy spec then
      ret (list_to_set ((fun d : gmap string string => d !! "hash")
                          <$> filter (fun d => d ≠ ∅) (default [] spec)))
    else raise ValueError
  else
    if list_truthy spec then
      do ws <- comprehension (filter (fun d => d ≠ ∅) (default [] spec))
                 (fun d : gmap string string => split_1 (d !! "titel"));
      ret (list_to_set (Some <$> ws))
    else
      match potcar_symbols (parameters entry) with
      | None => raise KeyError
      | Some syms =>
          do ws <- comprehension (filter (fun sym => sym ≠ "") syms)
                     (fun sym => split_1 (Some sym));
          ret (list_to_set (Some <$> ws))
      end.

Definition PotcarCorrection_get_correction (self : PotcarCorrection)
    (entry : Entry) : Reader Z :=
  do psp <- psp_settings self entry;
  let valid : gset (option string) :=
    list_to_set ((fun el => valid_potcars self !! symbol el)
                   <$> elements (composition entry)) in
  if bool_decide (valid ≠ psp) then raise CompatibilityError
  else ret 0.

(** *** GasCorrection *)

Record GasCorrection : Type := mkGasCorrection {
  gas_name : string;
  cpd_energies : gmap string Z
}.

Definition GasCorrection_get_correction (self : GasCorrection)
    (entry : Entry) : Reader Z :=
  let comp := composition entry in
  let rform := reduced_formula (composition entry) in
  match cpd_energies self !! rform with
  | Some e_ref => ret (e_ref * num_atoms comp - uncorrected_energy entry)
  | None => ret 0
  end.

(** *** AnionCorrection *)

Definition common_peroxides : list string :=
  ["Li2O2"; "Na2O2"; "K2O2"; "Cs2O2"; "Rb2O2"; "BeO2";
   "MgO2"; "CaO2"; "SrO2"; "BaO2"].
Definition common_superoxides : list string :=
  ["LiO2"; "NaO2"; "KO2"; "RbO2"; "CsO2"].
Definition ozonides : list string := ["LiO3"; "NaO3"; "KO3"; "NaO5"].

(** [x in l] on a list of strings *)
Definition str_in (x : string) (l : list string) : bool :=
  existsb (String.eqb x) l.

Record AnionCorrection : Type := mkAnionCorrection {
  oxide_correction : gmap string Z;
  sulfide_correction : gmap string Z;
  anion_name : string;
  correct_peroxide : bool
}.

Definition sulfur_part (self : AnionCorrection) (entry : Entry) : Z :=
  let comp := composition entry in
  if comp_contains comp "S" then
    let sf_type :=
      if str_truthy (sulfide_type (data entry))
      then default "" (sulfide_type (data entry))
      else match structure entry with
           | Some st => sulfide_type_of st
           | None => "sulfide"
           end in
    match sulfide_correction self !! sf_type with
    | Some c => c * comp_getitem comp "S"
    | None => 0
    end
  else 0.

Definition oxygen_part (self : AnionCorrection) (entry : Entry) : Reader Z :=
  let comp := composition entry in
  let oc := oxide_correction self in
  if comp_contains comp "O" then
    if correct_peroxide self then
      if str_truthy (oxide_type (data entry)) then
        let ot := default "" (oxide_type (data entry)) in
        let c1 := match oc !! ot with
                  | Some ox_corr => ox_corr * comp_getitem comp "O"
                  | None => 0
                  end in
        if String.eqb ot "hydroxide" then
          do ox_corr <- getitem oc "oxide";
          ret (c1 + ox_corr * comp_getitem comp "O")
        else ret c1
      else
        match structure entry with
        | Some st =>
            match oc !! oxide_type_of st with
            | Some ox_corr => ret (ox_corr * nbonds_of st)
            | None =>
                if String.eqb (oxide_type_of st) "hydroxide" then
                  do ox_corr <- getitem oc "oxide";
                  ret (ox_corr * comp_getitem comp "O")
                else ret 0
            end
        | None =>
            do_ warn NoStructureOrOxideType;
            let rform := reduced_formula (composition entry) in
            if str_in rform common_peroxides then
              do ox_corr <- getitem oc "peroxide";
              ret (ox_corr * comp_getitem comp "O")
            else if str_in rform common_superoxides then
              do ox_corr <- getitem oc "superoxide";
              ret (ox_corr * comp_getitem comp "O")
            else if str_in rform ozonides then
              do ox_corr <- getitem oc "ozonide";
              ret (ox_corr * comp_getitem comp "O")
            else if (comp_contains comp "O"
                     && Nat.ltb 1 (length (elements comp)))%bool then
              do ox_corr <- getitem oc "oxide";
              ret (ox_corr * comp_getitem comp "O")
            else ret 0
        end
    else
      do ox_corr <- getitem oc "oxide";
      ret (ox_corr * comp_getitem comp "O")
  else ret 0.

Definition AnionCorrection_get_correction (self : AnionCorrection)
    (entry : Entry) : Reader Z :=
  if Nat.eqb (comp_len (composition entry)) 1 then ret 0
  else
    let correction := 0 + sulfur_part self entry in
    do ox <- oxygen_part self entry;
    ret (correction + ox).

(** *** UCorrection *)

Record UCorrection : Type := mkUCorrection {
  u_settings : gmap string (gmap string Z);
  u_corrections : gmap string (gmap string Z);
  u_name : string;
  compat_type : string
}.

(** [UCorrection.__init__]: [ldauu] is [input_set.CONFIG["INCAR"]["LDAUU"]]
    and [ucorrections] is [c["Advanced"]["UCorrections"]] of the
    configuration file. *)
Definition UCorrection_init (name : string)
    (ldauu ucorrections : gmap string (gmap string Z)) (compat_type : string)
  : result UCorrection :=
  if negb (str_in compat_type ["GGA"; "Advanced"]) then Raise CompatibilityError
  else if String.eqb compat_type "Advanced"
       then Ok (mkUCorrection ldauu ucorrections name compat_type)
       else Ok (mkUCorrection ∅ ∅ name compat_type).

(** [sorted(l, key=lambda el: el.X)]: stable, ascending *)
Fixpoint insert_by_X (el : Element) (l : list Element) : list Element :=
  match l with
  | [] => [el]
  | y :: l' => if Z.ltb (X el) (X y) then el :: y :: l' else y :: insert_by_X el l'
  end.

Definition sorted_by_X (l : list Element) : list Element :=
  foldl (fun acc el => insert_by_X el acc) [] l.

(** The loop [for el in comp.elements] of [UCorrection.get_correction]. *)
Fixpoint u_loop (calc_u usettings ucorr : gmap string Z) (comp : Composition)
    (els : list Element) (correction : Z) : Reader Z :=
  match els with
  | [] => ret correction
  | el :: els' =>
      let sym := symbol el in
      if negb (Z.eqb (default 0 (calc_u !! sym)) (default 0 (usettings !! sym)))
      then raise CompatibilityError
      else u_loop calc_u usettings ucorr comp els'
             (match ucorr !! sym with
              | Some u => correction + u * comp_getitem comp sym
              | None => correction
              end)
  end.

Definition UCorrection_get_correction (self : UCorrection) (entry : Entry)
  : Reader Z :=
  if String.eqb (default "GGA" (run_type (parameters entry))) "HF"
  then raise CompatibilityError
  else
    let calc_u := default ∅ (hubbards (parameters entry)) in
    let comp := composition entry in
    let elements_ :=
      sorted_by_X (filter (fun el => 0 < comp_getitem comp (symbol el))
                          (elements comp)) in
    match last elements_ with
    | None => raise IndexError
    | Some el =>
        let most_electroneg := symbol el in
        let ucorr := default ∅ (u_corrections self !! most_electroneg) in
        let usettings := default ∅ (u_settings self !! most_electroneg) in
        u_loop calc_u usettings ucorr comp (elements comp) 0
    end.

(** The rules as [Correction] objects, with their [__str__]. *)
Definition PotcarCorrection_rule (self : PotcarCorrection) : Correction :=
  mkCorrection (PotcarCorrection_get_correction self)
    (input_set_name self ++ " Potcar Correction")
    "Checks that POTCARs are valid within a pre-defined input set.".

Definition GasCorrection_rule (self : GasCorrection) : Correction :=
  mkCorrection (GasCorrection_get_correction self)
    (gas_name self ++ " Gas Correction")
    "Correct gas energies to obtain the right formation energies.".

Definition AnionCorrection_rule (self : AnionCorrection) : Correction :=
  mkCorrection (AnionCorrection_get_correction self)
    (anion_name self ++ " Anion Correction")
    "Correct anion energies to obtain the right formation energies.".

Definition UCorrection_rule (self : UCorrection) : Correction :=
  mkCorrection (UCorrection_get_correction self)
    (u_name self ++ " " ++ compat_type self ++ " Correction")
    "This class implements the GGA/GGA+U mixing scheme.".

(** ** CorrectionsList *)

Record CorrectionsList : Type := mkCorrectionsList {
  corrections : list Correction;
  cl_clean : bool;
  cl_class_name : string
}.

(** The loop of [CorrectionsList.get_corrections_dict]: a rule that
    returns zero leaves no key. *)
Fixpoint corrections_loop (cs : list Correction) (entry : Entry)
    (acc : list (string * Z)) : Reader (list (string * Z)) :=
  match cs with
  | [] => ret acc
  | c :: cs' =>
      do val <- get_correction c entry;
      corrections_loop cs' entry
        (if negb (Z.eqb val 0) then dict_setitem (str c) val acc else acc)
  end.

Definition CorrectionsList_get_corrections_dict (self : CorrectionsList)
    (entry : Entry) : Reader (list (string * Z)) :=
  corrections_loop (corrections self) entry [].

Definition as_Compatibility (self : CorrectionsList) : Compatibility :=
  mkCompatibility (cl_clean self) (cl_class_name self)
                  (CorrectionsList_get_corrections_dict self).

Record CorrectionExplanation : Type := mkCorrectionExplanation {
  exp_name : string;
  exp_description : string;
  exp_value : Z
}.

Record Explanation : Type := mkExplanation {
  exp_compatibility : string;
  exp_uncorrected_energy : Z;
  exp_corrected_energy : option Z;
  exp_corrections : list CorrectionExplanation
}.

Definition get_explanation_dict (self : CorrectionsList) : M Entry Explanation :=
  do centry <- process_entry (as_Compatibility self);
  do entry <- get;
  let uncorrected_energy_ :=
    match centry with
    | None => uncorrected_energy entry
    | Some c => uncorrected_energy c
    end in
  let corrected_energy_ :=
    match centry with
    | None => None
    | Some c => Some (energy c)
    end in
  do corr_dict <- reading (CorrectionsList_get_corrections_dict self);
  ret (mkExplanation (cl_class_name self) uncorrected_energy_ corrected_energy_
         ((fun c => mkCorrectionExplanation (str c) (description c)
                      (default 0 (dict_get (str c) corr_dict)))
            <$> corrections self)).

(** [CorrectionsList.explain]: the printed text is not modelled, but
    ["%f" % d["corrected_energy"]] needs a number. *)
Definition explain (self : CorrectionsList) : M Entry unit :=
  do d <- get_explanation_dict self;
  match exp_corrected_energy d with
  | Some _ => ret tt
  | None => raise TypeError
  end.

(** [MaterialsProjectCompatibility] and [MITCompatibility]: the four rules
    in this order; [CorrectionsList.__init__] defaults [clean] to [True]. *)
Definition MaterialsProjectCompatibility (potcar : PotcarCorrection)
    (gas : GasCorrection) (anion : AnionCorrection) (u : UCorrection)
  : CorrectionsList :=
  mkCorrectionsList
    [PotcarCorrection_rule potcar; GasCorrection_rule gas;
     AnionCorrection_rule anion; UCorrection_rule u]
    true "MaterialsProjectCompatibility".

(** ** The rest of the rule interface *)

(** [Correction.correct_entry]: [entry.correction += self.get_correction(entry)]
    and the entry is returned; the Ledger is not written. *)
Definition correct_entry (c : Correction) : M Entry Entry :=
  do val <- reading (get_correction c);
  do_ modify (fun entry => set_correction (correction entry + val) entry);
  do entry <- get;
  ret entry.

(** [input_set.CONFIG["POTCAR"]]: a dict, in its order, that gives every
    element either a symbol string or a dict with "hash" and "symbol". *)
Inductive PotcarConfig : Type :=
  | SymbolConfig (items : list (string * string))
  | DetailedConfig (items : list (string * gmap string string)).

(** [{k: f(d) for k, d in items}]: a later item wins. *)
Fixpoint dict_comprehension {S A V} (items : list (string * A))
    (f : A -> M S V) (acc : gmap string V) : M S (gmap string V) :=
  match items with
  | [] => ret acc
  | (k, d) :: items' =>
      do v <- f d;
      dict_comprehension items' f (<[k := v]> acc)
  end.

(** [PotcarCorrection.__init__]: the test is on the last value of the
    dict, [list(potcar_settings.values())[-1]]. *)
Definition PotcarCorrection_init (input_set_name : string)
    (potcar_settings : PotcarConfig) (check_hash : bool)
  : Reader PotcarCorrection :=
  match potcar_settings with
  | SymbolConfig [] | DetailedConfig [] => raise IndexError
  | DetailedConfig items =>
      do valid <- dict_comprehension items
                    (fun d => getitem d (if check_hash then "hash" else "symbol"))
                    ∅;
      ret (mkPotcarCorrection valid check_hash input_set_name)
  | SymbolConfig items =>
      if check_hash then raise ValueError
      else
        do valid <- dict_comprehension items (fun d => ret d) ∅;
        ret (mkPotcarCorrection valid check_hash input_set_name)
  end.

(** [MITCompatibility]: as [MaterialsProjectCompatibility], with the MIT
    configuration. *)
Definition MITCompatibility (potcar : PotcarCorrection)
    (gas : GasCorrection) (anion : AnionCorrection) (u : UCorrection)
  : CorrectionsList :=
  mkCorrectionsList
    [PotcarCorrection_rule potcar; GasCorrection_rule gas;
     AnionCorrection_rule anion; UCorrection_rule u]
    true "MITCompatibility".

(** The set [{self.valid_potcars.get(str(el)) for el in
    entry.composition.elements}] of [PotcarCorrection.get_correction]. *)
Definition expected_potcars (self : PotcarCorrection) (entry : Entry)
  : gset (option string) :=
  list_to_set ((fun el => valid_potcars self !! symbol el)
                 <$> elements (composition entry)).

(** The key of the oxide table that the formula matching of
    [AnionCorrection.get_correction] selects for a reduced formula. *)
Definition fallback_oxide_key (rform : string) : string :=
  if str_in rform common_peroxides then "peroxide"
  else if str_in rform common_superoxides then "superoxide"
  else if str_in rform ozonides then "ozonide"
  else "oxide".

(** When the warning about the missing structure is given. *)
Definition formula_matching (self : AnionCorrection) (e : Entry) : bool :=
  (negb (Nat.eqb (comp_len (composition e)) 1)
   && comp_contains (composition e) "O"
   && correct_peroxide self
   && negb (str_truthy (oxide_type (data e)))
   && match structure e with None => true | Some _ => false end)%bool.

(** [elements[-1]] of [UCorrection.get_correction]: the last, in the
    order of increasing electronegativity, of the elements present with a
    positive amount. *)
Definition most_electronegative (comp : Composition) : option Element :=
  last (sorted_by_X (filter (fun el => 0 < comp_getitem comp (symbol el))
                            (elements comp))).

(** The Hubbard value the calculation used for an element and the one the
    rule expects when [anion] is the most electronegative element. *)
Definition calculated_U (e : Entry) (sym : string) : Z :=
  default 0 (default ∅ (hubbards (parameters e)) !! sym).

Definition expected_U (self : UCorrection) (anion sym : string) : Z :=
  default 0 (default ∅ (u_settings self !! anion) !! sym).

(** The sum, over the elements of the composition, of the correction per
    atom times the amount. *)
Definition U_total (self : UCorrection) (anion : string) (comp : Composition)
  : Z :=
  foldr (fun el acc =>
           default 0 (default ∅ (u_corrections self !! anion) !! symbol el)
           * comp_getitem comp (symbol el) + acc)
        0 (elements comp).

(** ** Notions the properties are stated with *)

(** The sum of the values of one inner dict. *)
Definition inner_total (inner : gmap string Z) : Z :=
  map_fold (fun _ v2 acc => acc + v2) 0 inner.

(** [correction] equals the sum of the values nested in the Ledger: the
    test of [validate_corrections]. *)
Definition I1 (e : Entry) : Prop := correction e = documented_correction e.

(** The entry the rules see: after the optional reset. *)
Definition prepared (self : Compatibility) (e : Entry) : Entry :=
  if clean self then clean_entry e else e.

(** The merge loop of [process_entry]. *)
Definition merge_all (cls : string) (corr : list (string * Z)) : M Entry unit :=
  for_each corr (fun kv => merge_adjustment cls kv.1 kv.2).

Definition outcome {S A} (r : Run S A) : S * result A :=
  (run_state r, run_result r).

(** What is recorded for a label under a source key. *)
Definition stored (e : Entry) (cls k : string) : option Z :=
  adj ← energy_adjustments (data e); inner ← adj !! cls; inner !! k.

(** The sum of the values of a dict of adjustments. *)
Definition total (corr : list (string * Z)) : Z :=
  foldr (fun kv acc => kv.2 + acc) 0 corr.

(** A chain of applications of [process_entry] to one entry object, one
    engine after the other: the states of the entry after every step, if
    every step returns the entry. *)
Fixpoint process_chain (engines : list Compatibility) (e : Entry)
  : option (list Entry) :=
  match engines with
  | [] => Some []
  | self :: engines' =>
      let r := process_entry self e in
      match run_result r with
      | Ok (Some _) => cons (run_state r) <$> process_chain engines' (run_state r)
      | _ => None
      end
  end.

(** ** Sample entries and engines *)

Definition el_O : Element := mkElement "O" 344.
Definition el_Li : Element := mkElement "Li" 98.
Definition el_Fe : Element := mkElement "Fe" 183.

Definition no_parameters : Parameters := mkParameters None None None None.
Definition no_data : Data := mkData None None None.

(** Two formula units of O2, never processed. *)
Definition entry_O4 : Entry :=
  mkEntry None (mkComposition [(el_O, 4)] "O2" 2) (-9) 0
          no_parameters no_data None.

(** A rule that returns the same value for every entry. *)
Definition constant_rule (name : string) (val : Z) : Correction :=
  mkCorrection (fun _ => ret val) name "A constant adjustment.".

(** An engine that keeps earlier adjustments, with one rule. *)
Definition engine_keep (cls label : string) (val : Z) : Compatibility :=
  as_Compatibility (mkCorrectionsList [constant_rule label val] false cls).

(** [CorrectionsList([GasCorrection(...)], clean=False)], the table giving
    -4 for "O2". *)
Definition gas_O2 : GasCorrection := mkGasCorrection "MP" {["O2" := -4]}.

Definition gas_engine_keep : CorrectionsList :=
  mkCorrectionsList [GasCorrection_rule gas_O2] false "CorrectionsList".

(** Two entries that differ at most in [correction] and the Ledger. *)
Definition same_but_adjustments (e e' : Entry) : Prop :=
  clean_entry e = clean_entry e'.

(** [CorrectionsList([GasCorrection(...)])], with the default [clean=True]. *)
Definition gas_engine : CorrectionsList :=
  mkCorrectionsList [GasCorrection_rule gas_O2] true "CorrectionsList".

(** Fe2O3 computed with run type "HF", and [CorrectionsList([UCorrection])]
    for the plain GGA scheme. *)
Definition entry_Fe2O3_HF : Entry :=
  mkEntry None (mkComposition [(el_Fe, 2); (el_O, 3)] "Fe2O3" 1) (-30) 0
          (mkParameters (Some "HF") None None None) no_data None.

Definition u_GGA : UCorrection := mkUCorrection ∅ ∅ "MP" "GGA".

Definition u_engine : CorrectionsList :=
  mkCorrectionsList [UCorrection_rule u_GGA] true "CorrectionsList".

(** Fe2O3 computed with run type "LDA". *)
Definition entry_Fe2O3_LDA : Entry :=
  mkEntry None (mkComposition [(el_Fe, 2); (el_O, 3)] "Fe2O3" 1) (-30) 0
          (mkParameters (Some "LDA") None None None) no_data None.

(** Li2O2 with neither an [oxide_type] datum nor a structure, and an anion
    rule that corrects peroxides. *)
Definition entry_Li2O2 : Entry :=
  mkEntry None (mkComposition [(el_Li, 2); (el_O, 2)] "Li2O2" 1) (-20) 0
          no_parameters no_data None.

Definition anion_MP : AnionCorrection :=
  mkAnionCorrection
    {["oxide" := -70; "peroxide" := -46; "superoxide" := -16; "ozonide" := 0]}
    {["sulfide" := -66]} "MP" true.

(** O4 whose Ledger records 5 for "b" under the source key
    "CorrectionsList", and an engine that keeps earlier adjustments and
    computes 1 for "a", then 7 for "b". *)
Definition entry_O4_stored_b : Entry :=
  mkEntry None (mkComposition [(el_O, 4)] "O2" 2) (-9) 5 no_parameters
    (mkData (Some {["CorrectionsList" := {["b" := 5]}]}) None None)
    None.

Definition engine_a_b : CorrectionsList :=
  mkCorrectionsList [constant_rule "a" 1; constant_rule "b" 7] false
                    "CorrectionsList".

(** O4 whose Ledger records 0 for "b" under the source key of
    [engine_a_b]; its correction is 0. *)
Definition entry_O4_stored_zero_b : Entry :=
  mkEntry None (mkComposition [(el_O, 4)] "O2" 2) (-9) 0 no_parameters
    (mkData (Some {["CorrectionsList" := {["b" := 0]}]}) None None)
    None.

(** O4 whose Ledger records 5 for "a" and 0 for "b" under the source key
    of [engine_a_b]; its correction is 5. *)
Definition entry_O4_stored_a_zero_b : Entry :=
  mkEntry None (mkComposition [(el_O, 4)] "O2" 2) (-9) 5 no_parameters
    (mkData (Some {["CorrectionsList" := {["a" := 5; "b" := 0]}]}) None None)
    None.

(** [process_entry] returned the entry (not [None], no exception). *)
Definition is_returned (r : result (option Entry)) : bool :=
  match r with
  | Ok (Some _) => true
  | _ => false
  end.

(** Fe2O3 computed with plain GGA. *)
Definition entry_Fe2O3 : Entry :=
  mkEntry None (mkComposition [(el_Fe, 2); (el_O, 3)] "Fe2O3" 1) (-30) 0
          no_parameters no_data None.

(** A batch of three entry objects: valid, invalid (run type "HF"), valid. *)
Definition batch_heap : Heap := fun l =>
  match l with
  | 0%nat => entry_Fe2O3
  | 1%nat => entry_Fe2O3_HF
  | _ => entry_O4
  end.

(** [CorrectionsList([PotcarCorrection(input_set, check_hash=True)])] *)
Definition potcar_hash : PotcarCorrection :=
  mkPotcarCorrection {["Fe" := "hash-Fe_pv"; "O" := "hash-O"]} true "MPRelaxSet".

Definition potcar_engine : CorrectionsList :=
  mkCorrectionsList [PotcarCorrection_rule potcar_hash] true "CorrectionsList".

(** A rule that warns and rejects every entry, and lists of rules around it. *)
Definition rejecting_rule (name : string) : Correction :=
  mkCorrection (fun _ => do_ warn NoStructureOrOxideType; raise CompatibilityError)
               name "Rejects.".

Definition engine_a_z_b : CorrectionsList :=
  mkCorrectionsList
    [constant_rule "a" 1; constant_rule "z" 0; constant_rule "b" 7] true
    "CorrectionsList".

Definition engine_a_reject_b : CorrectionsList :=
  mkCorrectionsList
    [constant_rule "a" 1; rejecting_rule "r"; constant_rule "b" 7] true
    "CorrectionsList".

(** An entry with an empty composition and a correction of unknown origin. *)
Definition entry_no_atoms : Entry :=
  mkEntry None (mkComposition [] "" 0) 0 5 no_parameters no_data None.

(** Fe2O3 with the POTCAR symbols of the run, and a [PotcarCorrection]
    that compares symbols. *)
Definition entry_Fe2O3_potcars : Entry :=
  mkEntry None (mkComposition [(el_Fe, 2); (el_O, 3)] "Fe2O3" 1) (-30) 0
    (mkParameters None None None
       (Some ["PAW_PBE O 08Apr2002"; "PAW_PBE Fe_pv 06Sep2000"; ""]))
    no_data None.

Definition potcar_symbol : PotcarCorrection :=
  mkPotcarCorrection {["Fe" := "Fe_pv"; "O" := "O"]} false "MPRelaxSet".

(** The POTCAR part of the configuration of an input set, with hashes. *)
Definition potcar_config_detailed : PotcarConfig :=
  DetailedConfig
    [("Fe", {["hash" := "hash-Fe_pv"; "symbol" := "Fe_pv"]});
     ("O", {["hash" := "hash-O"; "symbol" := "O"]})].

(** KO2 and Fe2O3 without structural classification, a hydroxide with an
    [oxide_type] datum and a structure that says otherwise. *)
Definition el_K : Element := mkElement "K" 82.
Definition el_H : Element := mkElement "H" 220.

Definition entry_KO2 : Entry :=
  mkEntry None (mkComposition [(el_K, 1); (el_O, 2)] "KO2" 1) (-10) 0
          no_parameters no_data None.

Definition entry_FeOOH : Entry :=
  mkEntry None
    (mkComposition [(el_Fe, 1); (el_H, 1); (el_O, 2)] "FeHO2" 1) (-20) 0
    no_parameters (mkData None (Some "hydroxide") None)
    (Some (mkStructure "sulfide" "peroxide" 1)).

Definition anion_no_peroxide : AnionCorrection :=
  mkAnionCorrection
    {["oxide" := -70; "peroxide" := -46; "superoxide" := -16; "ozonide" := 0]}
    {["sulfide" := -66]} "MP" false.

(** The Advanced scheme with U = 53 on Fe in oxides and a correction of
    -27 per Fe atom, and Fe2O3 computed with and without that U. *)
Definition u_Advanced : UCorrection :=
  mkUCorrection {["O" := {["Fe" := 53]}]} {["O" := {["Fe" := -27]}]}
                "MP" "Advanced".

Definition entry_Fe2O3_U : Entry :=
  mkEntry None (mkComposition [(el_Fe, 2); (el_O, 3)] "Fe2O3" 1) (-30) 0
          (mkParameters (Some "GGA+U") (Some {["Fe" := 53]}) None None)
          no_data None.

(** * The engine in floating point

    [entry.correction] and the values of the Ledger are Python floats:
    [+=] rounds after every addition and [!=] is the IEEE comparison.
    What [process_entry] and [validate_corrections] add up, and in which
    order, is modelled here on binary64 numbers, with the Ledger as the
    dict of dicts it is, both in insertion order.  The rule set of an
    engine is what its [get_corrections_dict] returns for an entry; the
    integer literal 0 of the code is the float 0. *)
Module Binary64.

Record Data : Type := mkData {
  energy_adjustments : option (list (string * list (string * float)));
  oxide_type : option string;
  sulfide_type : option string
}.

Record Entry : Type := mkEntry {
  entry_id : option string;
  composition : Composition;
  uncorrected_energy : float;
  correction : float;
  parameters : Parameters;
  data : Data;
  structure : option Structure
}.

Definition set_correction (c : float) (e : Entry) : Entry :=
  mkEntry (entry_id e) (composition e) (uncorrected_energy e) c
          (parameters e) (data e) (structure e).

Definition set_energy_adjustments
    (l : option (list (string * list (string * float)))) (e : Entry) : Entry :=
  mkEntry (entry_id e) (composition e) (uncorrected_energy e) (correction e)
          (parameters e)
          (mkData l (oxide_type (data e)) (sulfide_type (data e)))
          (structure e).

(** The values [entry.data["energy_adjustments"].get(k)] can take. *)
Inductive pyval : Type :=
  | PyNone
  | PyNum (x : float)
  | PyDict (d : list (string * float)).

(** [a == v] for a float [v]: neither [None] nor a dict equals a number. *)
Definition eq_num (a : pyval) (v : float) : bool :=
  match a with
  | PyNum x => PrimFloat.eqb x v
  | _ => false
  end.

(** ["{:.3f}".format(a)]: only a number has that format. *)
Definition format_3f {S} (a : pyval) : M S unit :=
  match a with
  | PyNum _ => ret tt
  | _ => raise TypeError
  end.

(** A dict is truthy when it is not empty, a float when it is not zero
    (NaN is truthy, -0.0 is not). *)
Definition dict_truthy {V} (o : option (list (string * V))) : bool :=
  match o with
  | Some (_ :: _) => true
  | _ => false
  end.

Definition num_truthy (o : option float) : bool :=
  match o with
  | Some z => negb (PrimFloat.eqb z 0%float)
  | None => false
  end.

Record Compatibility : Type := mkCompatibility {
  clean : bool;
  class_name : string;
  get_corrections_dict : Entry -> Reader (list (string * float))
}.

(** The two nested loops of [validate_corrections]:
    [documented_correction += v2], one accumulator, source after source
    and label after label in the order of the dicts. *)
Definition sum_adjustments (adj : list (string * list (string * float)))
  : float :=
  foldl (fun acc kv1 =>
           foldl (fun acc' kv2 => PrimFloat.add acc' kv2.2) acc kv1.2)
        0%float adj.

Definition documented_correction (e : Entry) : float :=
  if dict_truthy (energy_adjustments (data e))
  then sum_adjustments (default [] (energy_adjustments (data e)))
  else 0%float.

(** [entry.correction != documented_correction]; the warning text divides
    by [entry.composition.num_atoms]. *)
Definition validate_corrections : M Entry unit :=
  do entry <- get;
  if negb (PrimFloat.eqb (correction entry) (documented_correction entry)) then
    if Z.eqb (num_atoms (composition entry)) 0 then raise ZeroDivisionError
    else warn (UnknownProvenance64 (correction entry)
                                   (documented_correction entry))
  else ret tt.

(** [entry.data["energy_adjustments"].get(k)]: a lookup in the OUTER dict *)
Definition outer_get (adj : list (string * list (string * float)))
    (k : string) : pyval :=
  match dict_get k adj with
  | Some d => PyDict d
  | None => PyNone
  end.

(** [entry.correction += v], then the Ledger as it is after the write *)
Definition apply_adjustment (v : float)
    (adj : list (string * list (string * float))) : M Entry unit :=
  modify (fun entry =>
    set_energy_adjustments (Some adj)
      (set_correction (PrimFloat.add (correction entry) v) entry)).

(** The body of the loop [for k, v in corrections.items()] of
    [process_entry], branch by branch. *)
Definition merge_adjustment (cls k : string) (v : float) : M Entry unit :=
  do entry <- get;
  if dict_truthy (energy_adjustments (data entry)) then
    let adj := default [] (energy_adjustments (data entry)) in
    if dict_truthy (dict_get cls adj) then
      let inner := default [] (dict_get cls adj) in
      if num_truthy (dict_get k inner) then
        if eq_num (outer_get adj k) v then
          (* we already applied this exact correction. Do nothing. *)
          ret tt
        else
          do_ format_3f (outer_get adj k);
          do_ format_3f (PyNum v);
          raise CompatibilityError
      else
        (* entry.data["energy_adjustments"][cls][k] = v *)
        apply_adjustment v (dict_setitem cls (dict_setitem k v inner) adj)
    else
      (* entry.data["energy_adjustments"][cls] = {k: v} *)
      apply_adjustment v (dict_setitem cls [(k, v)] adj)
  else
    (* entry.data["energy_adjustments"] = {cls: {k: v}} *)
    apply_adjustment v [(cls, [(k, v)])].

(** [entry.correction = 0] and [del entry.data["energy_adjustments"]] *)
Definition clean_entry (entry : Entry) : Entry :=
  set_energy_adjustments None (set_correction 0%float entry).

Definition process_entry (self : Compatibility) : M Entry (option Entry) :=
  do_ (if clean self then modify clean_entry else ret tt);
  do_ validate_corrections;
  try_except_CompatibilityError
    (do corrections <- reading (get_corrections_dict self);
     do_ for_each corrections
           (fun kv => merge_adjustment (class_name self) kv.1 kv.2);
     do entry <- get;
     ret (Some entry))
    (ret None).

(** ** Notions the property is stated with *)

(** [correction] is the very number that [validate_corrections] computes
    from the Ledger. *)
Definition I1 (e : Entry) : Prop := correction e = documented_correction e.

Definition prepared (self : Compatibility) (e : Entry) : Entry :=
  if clean self then clean_entry e else e.

Definition merge_all (cls : string) (corr : list (string * float))
  : M Entry unit :=
  for_each corr (fun kv => merge_adjustment cls kv.1 kv.2).


(** A chain of applications of [process_entry] to one entry object: the
    states of the entry after every step, if every step returns the
    entry. *)
Fixpoint process_chain (engines : list Compatibility) (e : Entry)
  : option (list Entry) :=
  match engines with
  | [] => Some []
  | self :: engines' =>
      let r := process_entry self e in
      match run_result r with
      | Ok (Some _) => cons (run_state r) <$> process_chain engines' (run_state r)
      | _ => None
      end
  end.



(** ** Sample entries and engines *)

(** O4, uncorrected energy -9, fresh: no correction and no Ledger. *)
Definition entry_O4 : Entry :=
  mkEntry None (mkComposition [(el_O, 4)] "O2" 2) (-9)%float 0%float
          no_parameters (mkData None None None) None.

(** An engine that keeps earlier adjustments, with one rule that returns
    the same value for every entry. *)
Definition engine_keep (cls label : string) (val : float) : Compatibility :=
  mkCompatibility false cls (fun _ => ret [(label, val)]).


End Binary64.

(** * Properties *)

(** ** Sums over the Ledger *)

Lemma inner_fold_acc (inner : gmap string Z) (a : Z) :
  map_fold (fun (_ : string) v2 acc => acc + v2) a inner = a + inner_total inner.
Proof.
  unfold inner_total.
  replace a with ((fun y => a + y) 0) at 1 by lia.
  apply (map_fold_comm_acc (fun (_ : string) v2 acc => acc + v2) (fun y => a + y)).
  intros; lia.
Qed.

Lemma inner_total_empty : inner_total ∅ = 0.
Proof. unfold inner_total. by rewrite map_fold_empty. Qed.

Lemma inner_total_insert_fresh (inner : gmap string Z) k v :
  inner !! k = None -> inner_total (<[k := v]> inner) = inner_total inner + v.
Proof.
  intros Hk. unfold inner_total.
  rewrite map_fold_insert_L; [done | intros; lia | done].
Qed.

Lemma inner_total_insert (inner : gmap string Z) k v :
  inner_total (<[k := v]> inner)
  = inner_total inner - default 0 (inner !! k) + v.
Proof.
  destruct (inner !! k) as [old|] eqn:Hk; simpl.
  - rewrite <- (insert_delete_eq inner k v).
    rewrite inner_total_insert_fresh by apply lookup_delete_eq.
    rewrite <- (insert_delete_id inner k old) at 2 by done.
    rewrite inner_total_insert_fresh by apply lookup_delete_eq. lia.
  - rewrite inner_total_insert_fresh by done. lia.
Qed.

Lemma inner_total_singleton k v : inner_total ({[k := v]} : gmap string Z) = v.
Proof.
  rewrite <- insert_empty, inner_total_insert, lookup_empty, inner_total_empty.
  simpl. lia.
Qed.

Lemma sum_adjustments_empty : sum_adjustments ∅ = 0.
Proof. unfold sum_adjustments. by rewrite map_fold_empty. Qed.

Lemma sum_adjustments_insert_fresh (adj : gmap string (gmap string Z)) c inner :
  adj !! c = None ->
  sum_adjustments (<[c := inner]> adj) = sum_adjustments adj + inner_total inner.
Proof.
  intros Hc. unfold sum_adjustments.
  rewrite map_fold_insert_L; [| | done].
  - by rewrite inner_fold_acc.
  - intros. rewrite !inner_fold_acc. lia.
Qed.

Lemma sum_adjustments_insert (adj : gmap string (gmap string Z)) c inner :
  sum_adjustments (<[c := inner]> adj)
  = sum_adjustments adj - inner_total (default ∅ (adj !! c)) + inner_total inner.
Proof.
  destruct (adj !! c) as [old|] eqn:Hc; simpl.
  - rewrite <- (insert_delete_eq adj c inner).
    rewrite sum_adjustments_insert_fresh by apply lookup_delete_eq.
    rewrite <- (insert_delete_id adj c old) at 2 by done.
    rewrite sum_adjustments_insert_fresh by apply lookup_delete_eq. lia.
  - rewrite sum_adjustments_insert_fresh by done.
    rewrite inner_total_empty. lia.
Qed.

(** ** Invariant I1 *)

(** The documented correction is the sum over the whole Ledger, an absent
    Ledger counting as an empty one. *)
Lemma documented_correction_sum e :
  documented_correction e
  = sum_adjustments (default ∅ (energy_adjustments (data e))).
Proof.
  unfold documented_correction, dict_truthy.
  destruct (energy_adjustments (data e)) as [adj|]; cbn.
  - destruct (bool_decide (adj = ∅)) eqn:H; [|reflexivity].
    apply bool_decide_eq_true in H. subst. by rewrite sum_adjustments_empty.
  - by rewrite sum_adjustments_empty.
Qed.

(** The sum over the Ledger is the sum of the totals of its sources. *)
Lemma sum_adjustments_by_source (adj : gmap string (gmap string Z)) :
  sum_adjustments adj
  = map_fold (fun _ inner acc => acc + inner_total inner) 0 adj.
Proof.
  induction adj as [|c inner adj Hc _ IH] using map_first_key_ind.
  - by rewrite sum_adjustments_empty, map_fold_empty.
  - rewrite sum_adjustments_insert_fresh by done.
    rewrite map_fold_insert_L; [by rewrite IH | intros; lia | done].
Qed.

Lemma dict_truthy_insert {V} (m : gmap string V) k v :
  dict_truthy (Some (<[k := v]> m)) = true.
Proof.
  simpl. rewrite bool_decide_eq_false_2; [done|].
  apply insert_non_empty.
Qed.

Lemma dict_truthy_false_total (o : option (gmap string Z)) :
  dict_truthy o = false -> inner_total (default ∅ o) = 0.
Proof.
  destruct o as [d|]; simpl; intros H.
  - apply negb_false_iff, bool_decide_eq_true in H. subst. apply inner_total_empty.
  - apply inner_total_empty.
Qed.

Lemma num_truthy_false_default (o : option Z) :
  num_truthy o = false -> default 0 o = 0.
Proof.
  destruct o as [z|]; simpl; [|done].
  intros H. apply negb_false_iff in H. lia.
Qed.

(** The merge step, case by case. *)
Lemma merge_adjustment_eq cls k v e :
  merge_adjustment cls k v e =
  if dict_truthy (energy_adjustments (data e)) then
    let adj := default ∅ (energy_adjustments (data e)) in
    if dict_truthy (adj !! cls) then
      let inner := default ∅ (adj !! cls) in
      if num_truthy (inner !! k) then
        if py_eq (outer_get adj k) (PyNum v) then mkRun e [] (Ok tt)
        else match outer_get adj k with
             | PyNum _ => mkRun e [] (Raise CompatibilityError)
             | _ => mkRun e [] (Raise TypeError)
             end
      else mkRun (set_energy_adjustments (Some (<[cls := <[k := v]> inner]> adj))
                    (set_correction (correction e + v) e)) [] (Ok tt)
    else mkRun (set_energy_adjustments (Some (<[cls := {[k := v]}]> adj))
                  (set_correction (correction e + v) e)) [] (Ok tt)
  else mkRun (set_energy_adjustments (Some {[cls := {[k := v]}]})
                (set_correction (correction e + v) e)) [] (Ok tt).
Proof.
  unfold merge_adjustment, bind, get. cbn [run_result run_state run_warnings].
  destruct (dict_truthy (energy_adjustments (data e))); [|reflexivity].
  cbv zeta.
  destruct (dict_truthy (default ∅ (energy_adjustments (data e)) !! cls));
    [|reflexivity].
  destruct (num_truthy _); [|reflexivity].
  destruct (py_eq _ _); [reflexivity|].
  destruct (outer_get _ k); reflexivity.
Qed.

Arguments dict_truthy : simpl never.
Arguments num_truthy : simpl never.

Lemma dict_truthy_Some {V} (o : option (gmap string V)) :
  dict_truthy o = true -> o = Some (default ∅ o).
Proof. destruct o; [done | discriminate]. Qed.

Lemma documented_correction_set adj c e :
  documented_correction (set_energy_adjustments (Some adj) (set_correction c e))
  = if dict_truthy (Some adj) then sum_adjustments adj else 0.
Proof. reflexivity. Qed.

Lemma correction_set adj c e :
  correction (set_energy_adjustments adj (set_correction c e)) = c.
Proof. reflexivity. Qed.

(** One step of the merge keeps I1, whatever its outcome. *)
Lemma merge_adjustment_I1 cls k v e :
  I1 e -> I1 (run_state (merge_adjustment cls k v e)).
Proof.
  unfold I1. intros HI. rewrite merge_adjustment_eq.
  unfold documented_correction in HI.
  destruct (dict_truthy (energy_adjustments (data e))) eqn:Hadj.
  - cbv zeta.
    set (adj := default ∅ (energy_adjustments (data e))) in *.
    destruct (dict_truthy (adj !! cls)) eqn:Hcls.
    + destruct (num_truthy (default ∅ (adj !! cls) !! k)) eqn:Hk.
      * assert (Hsame : correction e = documented_correction e).
        { unfold documented_correction. by rewrite Hadj. }
        destruct (py_eq _ _); [exact Hsame|].
        destruct (outer_get adj k); exact Hsame.
      * cbn [run_state].
        rewrite documented_correction_set, correction_set, dict_truthy_insert.
        rewrite sum_adjustments_insert, inner_total_insert.
        rewrite (num_truthy_false_default _ Hk). lia.
    + cbn [run_state].
      rewrite documented_correction_set, correction_set, dict_truthy_insert.
      rewrite sum_adjustments_insert, (dict_truthy_false_total _ Hcls).
      rewrite inner_total_singleton. lia.
  - cbn [run_state].
    rewrite documented_correction_set, correction_set.
    rewrite <- insert_empty, dict_truthy_insert.
    rewrite sum_adjustments_insert, lookup_empty, sum_adjustments_empty.
    cbn [default]. rewrite inner_total_empty, inner_total_singleton. lia.
Qed.

(** ** The shape of a run of [process_entry] *)

Lemma outcome_bind {S A B} (m : M S A) (f : A -> M S B) s :
  outcome (bind m f s) =
  match run_result (m s) with
  | Ok a => outcome (f a (run_state (m s)))
  | Raise x => (run_state (m s), Raise x)
  end.
Proof. unfold outcome, bind. destruct (run_result (m s)); reflexivity. Qed.

Lemma outcome_try {S A} (m h : M S A) s :
  outcome (try_except_CompatibilityError m h s) =
  match (outcome (m s)).2 with
  | Raise CompatibilityError => outcome (h (outcome (m s)).1)
  | _ => outcome (m s)
  end.
Proof.
  unfold outcome, try_except_CompatibilityError. cbn [fst snd].
  destruct (run_result (m s)) as [a|x] eqn:Hr; [by rewrite Hr|].
  destruct x; by rewrite ?Hr.
Qed.

Lemma validate_corrections_state e : run_state (validate_corrections e) = e.
Proof.
  unfold validate_corrections, bind, get. cbn [run_result run_state].
  destruct (negb _); [|reflexivity].
  destruct (Z.eqb _ _); reflexivity.
Qed.

Lemma validate_corrections_result e :
  run_result (validate_corrections e) =
  if negb (Z.eqb (correction e) (documented_correction e))
  then if Z.eqb (num_atoms (composition e)) 0 then Raise ZeroDivisionError
       else Ok tt
  else Ok tt.
Proof.
  unfold validate_corrections, bind, get. cbn [run_result run_state].
  destruct (negb _); [|reflexivity].
  destruct (Z.eqb _ _); reflexivity.
Qed.

Lemma validate_corrections_I1 e : I1 e -> run_result (validate_corrections e) = Ok tt.
Proof.
  intros HI. rewrite validate_corrections_result.
  unfold I1 in HI. rewrite <- HI, Z.eqb_refl. reflexivity.
Qed.

Lemma validate_corrections_atoms e :
  num_atoms (composition e) <> 0 -> run_result (validate_corrections e) = Ok tt.
Proof.
  intros Hn. rewrite validate_corrections_result.
  destruct (negb _); [|reflexivity].
  by apply Z.eqb_neq in Hn as ->.
Qed.

Lemma process_entry_outcome self e :
  outcome (process_entry self e) =
  let e0 := prepared self e in
  match run_result (validate_corrections e0) with
  | Raise x => (e0, Raise x)
  | Ok _ =>
      match run_result (get_corrections_dict self e0 tt) with
      | Raise CompatibilityError => (e0, Ok None)
      | Raise x => (e0, Raise x)
      | Ok corr =>
          let m := merge_all (class_name self) corr e0 in
          match run_result m with
          | Ok _ => (run_state m, Ok (Some (run_state m)))
          | Raise CompatibilityError => (run_state m, Ok None)
          | Raise x => (run_state m, Raise x)
          end
      end
  end.
Proof.
  unfold process_entry, prepared, merge_all.
  rewrite outcome_bind.
  assert (Hprep : forall b : bool,
    run_result ((if b then modify clean_entry else ret tt) e) = Ok tt
    /\ run_state ((if b then modify clean_entry else ret tt) e)
       = if b then clean_entry e else e).
  { intros []; split; reflexivity. }
  destruct (Hprep (clean self)) as [-> ->].
  set (e0 := if clean self then clean_entry e else e). cbv zeta.
  rewrite outcome_bind, validate_corrections_state.
  destruct (run_result (validate_corrections e0)) as [[]|x]; [|reflexivity].
  rewrite outcome_try, outcome_bind.
  change (run_result (reading (get_corrections_dict self) e0))
    with (run_result (get_corrections_dict self e0 tt)).
  change (run_state (reading (get_corrections_dict self) e0)) with e0.
  destruct (run_result (get_corrections_dict self e0 tt)) as [corr|x].
  - rewrite outcome_bind.
    destruct (run_result (for_each corr _ e0)) as [[]|x]; [reflexivity|].
    destruct x; reflexivity.
  - destruct x; reflexivity.
Qed.

Lemma process_entry_state self e :
  run_state (process_entry self e) = (outcome (process_entry self e)).1.
Proof. reflexivity. Qed.

Lemma process_entry_result self e :
  run_result (process_entry self e) = (outcome (process_entry self e)).2.
Proof. reflexivity. Qed.

(** What [process_entry] returns is the entry object it was given, in the
    state the call leaves it in. *)
Lemma process_entry_returns_state self e e' :
  run_result (process_entry self e) = Ok (Some e') ->
  run_state (process_entry self e) = e'.
Proof.
  rewrite process_entry_state, process_entry_result, process_entry_outcome.
  cbv zeta.
  destruct (run_result (validate_corrections _)) as [[]|x]; [|discriminate].
  destruct (run_result (get_corrections_dict _ _ _)) as [corr|x].
  - destruct (run_result (merge_all _ _ _)) as [[]|x]; cbn [fst snd].
    + congruence.
    + destruct x; discriminate.
  - destruct x; discriminate.
Qed.

Lemma merge_all_I1 cls corr e : I1 e -> I1 (run_state (merge_all cls corr e)).
Proof.
  unfold merge_all. revert e.
  induction corr as [|[k v] corr IH]; intros e HI; [exact HI|].
  cbn [for_each]. unfold bind.
  pose proof (merge_adjustment_I1 cls k v e HI) as Hstep.
  cbn [fst snd].
  destruct (run_result (merge_adjustment cls k v e)); cbn [run_state].
  - by apply IH.
  - exact Hstep.
Qed.

Lemma clean_entry_I1 e : I1 (clean_entry e).
Proof. reflexivity. Qed.

(** A call of [process_entry] keeps I1, and establishes it when the engine
    cleans, whatever its outcome. *)
Lemma process_entry_I1 self e :
  I1 e \/ clean self = true -> I1 (run_state (process_entry self e)).
Proof.
  intros H.
  assert (H0 : I1 (prepared self e)).
  { unfold prepared. destruct (clean self); [apply clean_entry_I1|].
    destruct H; [done | discriminate]. }
  rewrite process_entry_state, process_entry_outcome. cbv zeta.
  destruct (run_result (validate_corrections _)) as [[]|x]; [|exact H0].
  destruct (run_result (get_corrections_dict _ _ _)) as [corr|x].
  - pose proof (merge_all_I1 (class_name self) corr _ H0) as Hm.
    destruct (run_result (merge_all _ _ _)) as [[]|x]; [exact Hm|].
    destruct x; exact Hm.
  - destruct x; exact H0.
Qed.

(** ** Invariant I1 along a chain of applications, with exact numbers *)

(** With exact numbers, every chain of applications of [process_entry]
    that all return the entry keeps I1 after every step: what a merge
    adds to [correction] is what it records in the Ledger.  In floating
    point the order of the additions matters as well: see the properties
    of [Binary64] at the end. *)
Lemma I1_chain_exact (engines : list Compatibility) (e : Entry) (es : list Entry) :
  I1 e -> process_chain engines e = Some es -> Forall I1 es.
Proof.
  revert e es. induction engines as [|self engines IH]; intros e es HI Hch.
  - cbn in Hch. injection Hch as <-. constructor.
  - cbn [process_chain] in Hch. cbv zeta in Hch.
    destruct (run_result (process_entry self e)) as [[e1|]|x]; try discriminate.
    destruct (process_chain engines (run_state (process_entry self e)))
      as [es'|] eqn:Hrest; [|discriminate].
    cbn in Hch. injection Hch as <-.
    assert (H1 : I1 (run_state (process_entry self e))).
    { apply process_entry_I1. by left. }
    constructor; [exact H1|]. by eapply IH.
Qed.

Lemma I1_chain_exact_witness :
  exists es,
    process_chain [engine_keep "A" "a" 1; engine_keep "B" "b" 2] entry_O4 = Some es
    /\ length es = 2%nat /\ Forall I1 es.
Proof.
  eexists. split; [vm_compute; reflexivity|]. split; [reflexivity|].
  apply (I1_chain_exact [engine_keep "A" "a" 1; engine_keep "B" "b" 2] entry_O4).
  - reflexivity.
  - vm_compute. reflexivity.
Defined.

(** ** A label that is already recorded *)

(** The comparison of the merge looks the label up in the outer dict,
    whose values are dicts: it never finds a number. *)
Lemma outer_get_ne_num adj k v : py_eq (outer_get adj k) (PyNum v) = false.
Proof. unfold outer_get. destruct (adj !! k); reflexivity. Qed.

Lemma stored_truthy e cls k :
  num_truthy (stored e cls k) = true ->
  exists adj inner,
    energy_adjustments (data e) = Some adj /\ adj !! cls = Some inner
    /\ dict_truthy (Some adj) = true /\ dict_truthy (Some inner) = true
    /\ num_truthy (inner !! k) = true.
Proof.
  unfold stored. intros H.
  destruct (energy_adjustments (data e)) as [adj|]; [|discriminate].
  cbn in H. destruct (adj !! cls) as [inner|] eqn:Hin; [|discriminate].
  cbn in H. exists adj, inner. repeat split; try done.
  - unfold dict_truthy. rewrite bool_decide_eq_false_2; [done|].
    intros ->. by rewrite lookup_empty in Hin.
  - unfold dict_truthy. rewrite bool_decide_eq_false_2; [done|].
    intros ->. by rewrite lookup_empty in H.
Qed.

(** Merging a label that is recorded with a nonzero value stops with
    TypeError, whatever the new value is, and leaves the entry as it is. *)
Lemma merge_adjustment_recorded cls k v e :
  num_truthy (stored e cls k) = true ->
  outcome (merge_adjustment cls k v e) = (e, Raise TypeError).
Proof.
  intros H. destruct (stored_truthy _ _ _ H) as (adj & inner & Ha & Hin & Ht1 & Ht2 & Hk).
  rewrite merge_adjustment_eq, Ha. cbn. rewrite Ht1, Hin.
  cbn. rewrite Ht2, Hk, outer_get_ne_num.
  unfold outer_get. destruct (adj !! k); reflexivity.
Qed.

(** ** C1: applying the same engine twice *)

(** C1. Idempotent re-application does not hold for an engine that keeps
    earlier adjustments: the entry O4 (uncorrected energy -9) is processed
    by [CorrectionsList([GasCorrection], clean=False)], which returns it
    with correction -7 recorded under "MP Gas Correction"; processing the
    returned entry again with the same engine raises TypeError instead of
    returning the entry unchanged. *)
Theorem reapplication_raises_TypeError :
  let self := as_Compatibility gas_engine_keep in
  let first := process_entry self entry_O4 in
  run_result first = Ok (Some (run_state first))
  /\ correction (run_state first) = -7
  /\ stored (run_state first) "CorrectionsList" "MP Gas Correction" = Some (-7)
  /\ run_result (process_entry self (run_state first)) = Raise TypeError.
Proof. vm_compute. repeat split; reflexivity. Qed.

(** ** What a call may change in the entry *)

Lemma merge_adjustment_frame cls k v e :
  same_but_adjustments (run_state (merge_adjustment cls k v e)) e.
Proof.
  unfold same_but_adjustments. rewrite merge_adjustment_eq.
  destruct (dict_truthy _); [|reflexivity]. cbv zeta.
  destruct (dict_truthy _); [|reflexivity].
  destruct (num_truthy _); [|reflexivity].
  destruct (py_eq _ _); [reflexivity|].
  destruct (outer_get _ _); reflexivity.
Qed.

Lemma merge_all_frame cls corr e :
  same_but_adjustments (run_state (merge_all cls corr e)) e.
Proof.
  unfold merge_all, same_but_adjustments. revert e.
  induction corr as [|[k v] corr IH]; intros e; [reflexivity|].
  cbn [for_each]. unfold bind.
  pose proof (merge_adjustment_frame cls k v e) as Hstep.
  unfold same_but_adjustments in Hstep. cbn [fst snd].
  destruct (run_result (merge_adjustment cls k v e)); cbn [run_state].
  - by rewrite IH.
  - exact Hstep.
Qed.

Lemma prepared_frame self e : same_but_adjustments (prepared self e) e.
Proof. unfold prepared. destruct (clean self); reflexivity. Qed.

(** [process_entry] writes to [correction] and to the Ledger only. *)
Lemma process_entry_frame self e :
  same_but_adjustments (run_state (process_entry self e)) e.
Proof.
  pose proof (prepared_frame self e) as H0.
  unfold same_but_adjustments in *.
  rewrite process_entry_state, process_entry_outcome. cbv zeta.
  destruct (run_result (validate_corrections _)) as [[]|x]; [|exact H0].
  destruct (run_result (get_corrections_dict _ _ _)) as [corr|x].
  - pose proof (merge_all_frame (class_name self) corr (prepared self e)) as Hm.
    unfold same_but_adjustments in Hm.
    destruct (run_result (merge_all _ _ _)) as [[]|x]; cbn [fst];
      [congruence|].
    destruct x; cbn [fst]; congruence.
  - destruct x; exact H0.
Qed.

(** An engine that cleans does not look at [correction] or the Ledger. *)
Lemma process_entry_clean_frame self e e' :
  clean self = true -> same_but_adjustments e e' ->
  process_entry self e = process_entry self e'.
Proof.
  unfold same_but_adjustments, process_entry. intros -> H.
  unfold bind at 1. unfold bind at 3.
  cbn [modify run_result run_state run_warnings]. by rewrite H.
Qed.

(** With an engine that cleans, a second application repeats the first:
    same result, same [correction], same Ledger. *)
Lemma process_entry_clean_idempotent self e :
  clean self = true ->
  process_entry self (run_state (process_entry self e)) = process_entry self e.
Proof.
  intros Hc. apply process_entry_clean_frame; [exact Hc|].
  apply process_entry_frame.
Qed.

(** ** C5 and C6: the explanation *)

Lemma run_state_bind {S A B} (m : M S A) (f : A -> M S B) s :
  run_state (bind m f s) =
  match run_result (m s) with
  | Ok a => run_state (f a (run_state (m s)))
  | Raise _ => run_state (m s)
  end.
Proof. unfold bind. destruct (run_result (m s)); reflexivity. Qed.

Lemma run_result_bind {S A B} (m : M S A) (f : A -> M S B) s :
  run_result (bind m f s) =
  match run_result (m s) with
  | Ok a => run_result (f a (run_state (m s)))
  | Raise x => Raise x
  end.
Proof. unfold bind. destruct (run_result (m s)); reflexivity. Qed.

Lemma get_explanation_dict_state self e :
  run_state (get_explanation_dict self e)
  = run_state (process_entry (as_Compatibility self) e).
Proof.
  unfold get_explanation_dict. rewrite run_state_bind.
  destruct (run_result (process_entry (as_Compatibility self) e)) as [centry|x];
    [|reflexivity].
  rewrite run_state_bind. cbn [get run_result run_state].
  rewrite run_state_bind. cbn [reading run_result run_state].
  destruct (run_result (CorrectionsList_get_corrections_dict self _ tt));
    reflexivity.
Qed.

Lemma explain_state self e :
  run_state (explain self e) = run_state (get_explanation_dict self e).
Proof.
  unfold explain. rewrite run_state_bind.
  destruct (run_result (get_explanation_dict self e)) as [d|x]; [|reflexivity].
  destruct (exp_corrected_energy d); reflexivity.
Qed.

(** C5, as the code has it.  [get_explanation_dict] and [explain] run
    [process_entry] on the entry itself, not on a copy: they leave the
    entry in the state [process_entry] leaves it in, so [correction] and
    the Ledger may change; every other field of the entry is as before. *)
Theorem explanation_leaves_entry_as_process_entry (self : CorrectionsList) (e : Entry) :
  run_state (get_explanation_dict self e)
    = run_state (process_entry (as_Compatibility self) e)
  /\ run_state (explain self e)
    = run_state (process_entry (as_Compatibility self) e)
  /\ same_but_adjustments (run_state (get_explanation_dict self e)) e.
Proof.
  rewrite explain_state, get_explanation_dict_state.
  repeat split. apply process_entry_frame.
Qed.

(** C5 as stated fails: the explanation of the unprocessed entry O4 under
    [CorrectionsList([GasCorrection])] leaves the entry with correction -7
    and a Ledger, where it had correction 0 and none. *)
Lemma explanation_mutates_entry :
  run_state (get_explanation_dict gas_engine entry_O4) <> entry_O4
  /\ correction entry_O4 = 0
  /\ correction (run_state (get_explanation_dict gas_engine entry_O4)) = -7
  /\ stored (run_state (get_explanation_dict gas_engine entry_O4))
        "CorrectionsList" "MP Gas Correction" = Some (-7).
Proof.
  split; [|vm_compute; repeat split; reflexivity].
  intros H. apply (f_equal correction) in H. vm_compute in H. discriminate.
Qed.

(** A rule that rejects the entry rejects it again when the explanation
    asks the rules a second time. *)
Lemma get_explanation_dict_rejected self e :
  let e0 := prepared (as_Compatibility self) e in
  run_result (validate_corrections e0) = Ok tt ->
  run_result (CorrectionsList_get_corrections_dict self e0 tt)
    = Raise CompatibilityError ->
  run_result (process_entry (as_Compatibility self) e) = Ok None
  /\ run_result (get_explanation_dict self e) = Raise CompatibilityError.
Proof.
  intros e0 Hv Hg.
  assert (Ho : outcome (process_entry (as_Compatibility self) e) = (e0, Ok None)).
  { rewrite process_entry_outcome. fold e0. cbv zeta. rewrite Hv.
    cbn [get_corrections_dict as_Compatibility]. by rewrite Hg. }
  injection Ho as Hs Hr. split; [exact Hr|].
  unfold get_explanation_dict. rewrite run_result_bind, Hr, Hs.
  rewrite run_result_bind. cbn [get run_result run_state].
  rewrite run_result_bind. cbn [reading run_result run_state].
  by rewrite Hg.
Qed.

(** C6. The explanation of a rejected entry fails: [process_entry] returns
    [None] for Fe2O3 with run type "HF" under
    [CorrectionsList([UCorrection])], and [get_explanation_dict] on that
    entry raises CompatibilityError instead of giving a record with an
    absent corrected energy. *)
Theorem explanation_of_rejected_entry_raises :
  run_result (process_entry (as_Compatibility u_engine) entry_Fe2O3_HF) = Ok None
  /\ run_result (get_explanation_dict u_engine entry_Fe2O3_HF)
     = Raise CompatibilityError.
Proof. vm_compute. split; reflexivity. Qed.

(** ** C4: the reference table of GasCorrection *)

(** C4, as the code has it.  When the reduced formula of the entry is in
    the table with value E, [GasCorrection.get_correction] returns
    E * (total number of atoms) - uncorrected_energy: the table value
    counts per atom, not per formula unit.  When the reduced formula is
    not in the table it returns zero.  It never raises nor warns. *)
Theorem GasCorrection_per_atom (self : GasCorrection) (e : Entry) :
  GasCorrection_get_correction self e tt =
  mkRun tt []
    (Ok match cpd_energies self !! reduced_formula (composition e) with
        | Some e_ref => e_ref * num_atoms (composition e) - uncorrected_energy e
        | None => 0
        end).
Proof.
  unfold GasCorrection_get_correction.
  destruct (cpd_energies self !! reduced_formula (composition e)); reflexivity.
Qed.

(** C4 as stated fails: with -4 for "O2" in the table, the entry O4 (two
    formula units, four atoms) of uncorrected energy -9 gets
    -4 * 4 + 9 = -7, not -4 * 2 + 9 = 1. *)
Lemma GasCorrection_not_per_formula_unit :
  cpd_energies gas_O2 !! reduced_formula (composition entry_O4) = Some (-4)
  /\ formula_units (composition entry_O4) = 2
  /\ run_result (GasCorrection_get_correction gas_O2 entry_O4 tt) = Ok (-7)
  /\ run_result (GasCorrection_get_correction gas_O2 entry_O4 tt)
     <> Ok (-4 * formula_units (composition entry_O4)
            - uncorrected_energy entry_O4).
Proof.
  repeat split; try (vm_compute; reflexivity).
  vm_compute. discriminate.
Qed.

(** ** C8: the run type in UCorrection *)

(** C8, as the code has it.  For every entry whose run type is "HF",
    [UCorrection.get_correction] raises CompatibilityError, whatever the
    composition and the Hubbard parameters are. *)
Theorem UCorrection_rejects_HF (self : UCorrection) (e : Entry) :
  run_type (parameters e) = Some "HF" ->
  UCorrection_get_correction self e tt = mkRun tt [] (Raise CompatibilityError).
Proof.
  intros H. unfold UCorrection_get_correction. rewrite H. reflexivity.
Qed.

Lemma UCorrection_rejects_HF_witness :
  run_type (parameters entry_Fe2O3_HF) = Some "HF"
  /\ UCorrection_get_correction u_GGA entry_Fe2O3_HF tt
     = mkRun tt [] (Raise CompatibilityError).
Proof.
  split; [reflexivity|].
  apply (UCorrection_rejects_HF u_GGA entry_Fe2O3_HF). reflexivity.
Defined.

(** C8 as stated fails: the run type "LDA" is neither "GGA" nor "GGA+U",
    and the rule accepts Fe2O3 computed with it. *)
Lemma UCorrection_accepts_LDA :
  run_type (parameters entry_Fe2O3_LDA) = Some "LDA"
  /\ run_result (UCorrection_get_correction u_GGA entry_Fe2O3_LDA tt) = Ok 0
  /\ run_result (UCorrection_get_correction u_GGA entry_Fe2O3_LDA tt)
     <> Raise CompatibilityError.
Proof.
  repeat split; try (vm_compute; reflexivity).
  vm_compute. discriminate.
Qed.

(** ** C9: a known peroxide without structural classification *)

(** C9. For every oxygen-bearing entry of reduced formula "Li2O2" (so of
    more than one element, and without sulfur) that has neither an
    [oxide_type] datum nor a structure, the anion rule with peroxide
    corrections enabled returns the "peroxide" value of its table times
    the number of oxygen atoms, and surfaces the warning about the missing
    structure. *)
Theorem AnionCorrection_Li2O2_peroxide
    (self : AnionCorrection) (e : Entry) (peroxide : Z) :
  correct_peroxide self = true ->
  reduced_formula (composition e) = "Li2O2" ->
  comp_contains (composition e) "O" = true ->
  comp_contains (composition e) "S" = false ->
  comp_len (composition e) <> 1%nat ->
  oxide_type (data e) = None ->
  structure e = None ->
  oxide_correction self !! "peroxide" = Some peroxide ->
  AnionCorrection_get_correction self e tt =
  mkRun tt [NoStructureOrOxideType]
        (Ok (peroxide * comp_getitem (composition e) "O")).
Proof.
  intros Hcp Hrf HO HS Hlen Hot Hst Hp.
  unfold AnionCorrection_get_correction.
  apply Nat.eqb_neq in Hlen. rewrite Hlen.
  unfold sulfur_part, oxygen_part. rewrite HS, HO, Hcp, Hot, Hst, Hrf.
  cbn [str_truthy]. unfold getitem. 
  change (str_in "Li2O2" common_peroxides) with true. cbv iota.
  unfold bind, warn. cbn [run_result run_state run_warnings].
  rewrite Hp. cbn. reflexivity.
Qed.

Lemma AnionCorrection_Li2O2_peroxide_witness :
  AnionCorrection_get_correction anion_MP entry_Li2O2 tt =
  mkRun tt [NoStructureOrOxideType] (Ok (-92)).
Proof.
  apply (AnionCorrection_Li2O2_peroxide anion_MP entry_Li2O2 (-46));
    vm_compute; congruence.
Defined.

(** ** Merging labels that are not recorded, or recorded as zero *)

Lemma stored_set adj c e cls k :
  stored (set_energy_adjustments (Some adj) (set_correction c e)) cls k
  = inner ← adj !! cls; inner !! k.
Proof. reflexivity. Qed.

Lemma stored_no_ledger e cls k :
  dict_truthy (energy_adjustments (data e)) = false -> stored e cls k = None.
Proof.
  unfold stored, dict_truthy.
  destruct (energy_adjustments (data e)) as [adj|]; [|done].
  intros H. apply negb_false_iff, bool_decide_eq_true in H. subst. cbn.
  by rewrite lookup_empty.
Qed.

Lemma stored_no_source e adj cls k :
  energy_adjustments (data e) = Some adj ->
  dict_truthy (adj !! cls) = false -> stored e cls k = None.
Proof.
  unfold stored, dict_truthy. intros -> H. cbn.
  destruct (adj !! cls) as [inner|]; [|done].
  apply negb_false_iff, bool_decide_eq_true in H. subst. cbn.
  by rewrite lookup_empty.
Qed.

(** A label that is absent or recorded as zero is written, and its value
    added to [correction]; the other labels of the source stay. *)
Lemma merge_adjustment_fresh cls k v e :
  num_truthy (stored e cls k) = false ->
  let r := merge_adjustment cls k v e in
  run_result r = Ok tt
  /\ correction (run_state r) = correction e + v
  /\ stored (run_state r) cls k = Some v
  /\ (forall k', k' <> k -> stored (run_state r) cls k' = stored e cls k').
Proof.
  intros Hf r. subst r. rewrite merge_adjustment_eq.
  destruct (dict_truthy (energy_adjustments (data e))) eqn:Hadj.
  - apply dict_truthy_Some in Hadj as Ha.
    set (adj := default ∅ (energy_adjustments (data e))) in *. cbv zeta.
    destruct (dict_truthy (adj !! cls)) eqn:Hcls.
    + apply dict_truthy_Some in Hcls as Hin.
      set (inner := default ∅ (adj !! cls)) in *.
      assert (Hst : forall k', stored e cls k' = inner !! k').
      { intros k'. unfold stored. rewrite Ha. cbn. by rewrite Hin. }
      rewrite Hst in Hf. rewrite Hf. cbn [run_state run_result].
      repeat split.
      * by rewrite stored_set, lookup_insert_eq; cbn; rewrite lookup_insert_eq.
      * intros k' Hne. rewrite stored_set, lookup_insert_eq. cbn.
        by rewrite lookup_insert_ne, Hst.
    + cbn [run_state run_result]. repeat split.
      * by rewrite stored_set, lookup_insert_eq; cbn; rewrite lookup_singleton_eq.
      * intros k' Hne. rewrite stored_set, lookup_insert_eq. cbn.
        rewrite lookup_singleton_ne by done.
        symmetry. by eapply stored_no_source.
  - cbn [run_state run_result]. repeat split.
    + by rewrite stored_set, lookup_singleton_eq; cbn; rewrite lookup_singleton_eq.
    + intros k' Hne. rewrite stored_set, lookup_singleton_eq. cbn.
      rewrite lookup_singleton_ne by done.
      symmetry. by apply stored_no_ledger.
Qed.

(** Merging one label does not touch what is recorded for another. *)
Lemma merge_adjustment_other cls k v e k' :
  k' <> k -> stored (run_state (merge_adjustment cls k v e)) cls k' = stored e cls k'.
Proof.
  intros Hne. destruct (num_truthy (stored e cls k)) eqn:Hk.
  - pose proof (merge_adjustment_recorded cls k v e Hk) as Ho.
    apply (f_equal fst) in Ho. cbn [outcome fst] in Ho. by rewrite Ho.
  - by apply (merge_adjustment_fresh cls k v e Hk).
Qed.

Lemma merge_all_cons cls k v corr e :
  outcome (merge_all cls ((k, v) :: corr) e) =
  match run_result (merge_adjustment cls k v e) with
  | Ok _ => outcome (merge_all cls corr (run_state (merge_adjustment cls k v e)))
  | Raise x => (run_state (merge_adjustment cls k v e), Raise x)
  end.
Proof. unfold merge_all. cbn [for_each]. by rewrite outcome_bind. Qed.

Lemma merge_all_fresh cls corr : forall e,
  NoDup corr.*1 ->
  (forall k, k ∈ corr.*1 -> num_truthy (stored e cls k) = false) ->
  let r := merge_all cls corr e in
  run_result r = Ok tt
  /\ correction (run_state r) = correction e + total corr
  /\ (forall k v, (k, v) ∈ corr -> stored (run_state r) cls k = Some v)
  /\ (forall k, k ∉ corr.*1 -> stored (run_state r) cls k = stored e cls k).
Proof.
  induction corr as [|[k v] corr IH]; intros e Hnd Hf.
  - unfold merge_all. cbn.
    split; [reflexivity|]. split; [lia|]. split; [|reflexivity].
    intros k v H. by apply elem_of_nil in H.
  - cbv zeta.
    change (run_result (merge_all cls ((k, v) :: corr) e))
      with (outcome (merge_all cls ((k, v) :: corr) e)).2.
    change (run_state (merge_all cls ((k, v) :: corr) e))
      with (outcome (merge_all cls ((k, v) :: corr) e)).1.
    rewrite merge_all_cons.
    cbn [fmap list_fmap fst] in Hnd, Hf. apply NoDup_cons in Hnd as [Hk Hnd].
    destruct (merge_adjustment_fresh cls k v e) as (Hr & Hc & Hs & Ho).
    { apply Hf. left. }
    rewrite Hr. cbn [fst snd outcome].
    set (e1 := run_state (merge_adjustment cls k v e)) in *.
    destruct (IH e1 Hnd) as (Hr' & Hc' & Hs' & Ho').
    { intros k' Hk'. rewrite Ho; [apply Hf; by right|].
      intros ->. done. }
    repeat split.
    + exact Hr'.
    + rewrite Hc', Hc. cbn [total foldr snd]. fold (total corr). lia.
    + intros k' v' Hin. apply elem_of_cons in Hin as [Heq|Hin].
      * injection Heq as -> ->. rewrite Ho'; [exact Hs|exact Hk].
      * by apply Hs'.
    + intros k' Hk'. cbn [fmap list_fmap fst] in Hk'.
      apply not_elem_of_cons in Hk' as [Hne Hk'].
      rewrite Ho' by exact Hk'. by apply Ho.
Qed.

Lemma prepared_composition self e :
  composition (prepared self e) = composition e.
Proof. unfold prepared. destruct (clean self); reflexivity. Qed.

Lemma validate_corrections_passes self e :
  I1 (prepared self e) \/ num_atoms (composition e) <> 0 ->
  run_result (validate_corrections (prepared self e)) = Ok tt.
Proof.
  intros [HI|Hat]; [by apply validate_corrections_I1|].
  apply validate_corrections_atoms. by rewrite prepared_composition.
Qed.

(** ** C10: a label recorded as zero *)

(** C10, as the code has it.  Take an entry whose Ledger records the value
    0 for a label under the source key of the engine, and an engine whose rule set computes a
    mapping [corr] that gives this label a nonzero value [v]; the other
    labels of [corr] are unrecorded or recorded as zero when the merge
    starts, and validation passes (the entry satisfies I1 or has atoms).
    Then [process_entry] raises no conflict and does not skip the label:
    it returns the entry, with [v] recorded for the label in place of the
    zero and with the values of [corr], [v] among them, added to
    [correction]. *)
Theorem stored_zero_is_overwritten
    (self : Compatibility) (e : Entry) (corr : list (string * Z))
    (k : string) (v : Z) :
  I1 (prepared self e) \/ num_atoms (composition e) <> 0 ->
  stored e (class_name self) k = Some 0 ->
  run_result (get_corrections_dict self (prepared self e) tt) = Ok corr ->
  NoDup corr.*1 ->
  (k, v) ∈ corr ->
  v <> 0 ->
  (forall k', k' ∈ corr.*1 -> k' <> k ->
     num_truthy (stored (prepared self e) (class_name self) k') = false) ->
  let r := process_entry self e in
  run_result r = Ok (Some (run_state r))
  /\ stored (run_state r) (class_name self) k = Some v
  /\ correction (run_state r) = correction (prepared self e) + total corr.
Proof.
  intros Hval Hz Hg Hnd Hin Hv Hothers r. subst r.
  assert (Hf : forall k', k' ∈ corr.*1 ->
            num_truthy (stored (prepared self e) (class_name self) k') = false).
  { intros k' Hk'. destruct (decide (k' = k)) as [->|Hne]; [|by apply Hothers].
    unfold prepared. destruct (clean self); [reflexivity|]. by rewrite Hz. }
  rewrite process_entry_result, process_entry_state, process_entry_outcome.
  cbv zeta. rewrite (validate_corrections_passes self e Hval), Hg.
  destruct (merge_all_fresh (class_name self) corr (prepared self e) Hnd Hf)
    as (Hr & Hc & Hs & _).
  rewrite Hr. cbn [fst snd]. repeat split.
  - by apply Hs.
  - exact Hc.
Qed.

Lemma stored_zero_is_overwritten_witness :
  let r := process_entry (as_Compatibility engine_a_b) entry_O4_stored_zero_b in
  run_result r = Ok (Some (run_state r))
  /\ stored (run_state r) "CorrectionsList" "b" = Some 7
  /\ correction (run_state r) = 8.
Proof.
  apply (stored_zero_is_overwritten (as_Compatibility engine_a_b)
           entry_O4_stored_zero_b [("a", 1); ("b", 7)] "b" 7).
  - left. reflexivity.
  - reflexivity.
  - vm_compute. reflexivity.
  - apply NoDup_cons. split; [|apply NoDup_singleton].
    intros H. apply list_elem_of_singleton in H. discriminate.
  - right. by left.
  - lia.
  - intros k' Hk' Hne. apply elem_of_cons in Hk' as [->|Hk']; [reflexivity|].
    apply list_elem_of_singleton in Hk'. done.
Defined.

(** C10 as stated fails: a stored zero is not overwritten when the merge
    stops before it.  The Ledger of the entry records 5 for "a" and 0 for
    "b" under the source key of the engine, whose rules give 1 for "a"
    and 7 for "b": the call ends at "a", "b" stays 0 and [correction]
    stays 5. *)
Lemma stored_zero_behind_recorded_label :
  stored entry_O4_stored_a_zero_b "CorrectionsList" "b" = Some 0
  /\ run_result (CorrectionsList_get_corrections_dict engine_a_b
                   entry_O4_stored_a_zero_b tt) = Ok [("a", 1); ("b", 7)]
  /\ run_result (process_entry (as_Compatibility engine_a_b)
                   entry_O4_stored_a_zero_b) = Raise TypeError
  /\ stored (run_state (process_entry (as_Compatibility engine_a_b)
                          entry_O4_stored_a_zero_b)) "CorrectionsList" "b"
     = Some 0
  /\ correction (run_state (process_entry (as_Compatibility engine_a_b)
                              entry_O4_stored_a_zero_b)) = 5.
Proof. vm_compute. repeat split; reflexivity. Qed.

(** ** C2: a label recorded with another value *)

Lemma merge_all_app cls pre post e :
  outcome (merge_all cls (pre ++ post)%list e) =
  match run_result (merge_all cls pre e) with
  | Ok _ => outcome (merge_all cls post (run_state (merge_all cls pre e)))
  | Raise x => (run_state (merge_all cls pre e), Raise x)
  end.
Proof.
  revert e. induction pre as [|[k v] pre IH]; intros e; [reflexivity|].
  cbn [app]. rewrite merge_all_cons.
  change (run_result (merge_all cls ((k, v) :: pre) e))
    with (outcome (merge_all cls ((k, v) :: pre) e)).2.
  change (run_state (merge_all cls ((k, v) :: pre) e))
    with (outcome (merge_all cls ((k, v) :: pre) e)).1.
  rewrite merge_all_cons.
  destruct (run_result (merge_adjustment cls k v e)); [|reflexivity].
  apply IH.
Qed.

Lemma merge_all_other cls corr k : forall e,
  k ∉ corr.*1 -> stored (run_state (merge_all cls corr e)) cls k = stored e cls k.
Proof.
  induction corr as [|[k' v'] corr IH]; intros e Hk; [reflexivity|].
  cbn [fmap list_fmap fst] in Hk. apply not_elem_of_cons in Hk as [Hne Hk].
  change (run_state (merge_all cls ((k', v') :: corr) e))
    with (outcome (merge_all cls ((k', v') :: corr) e)).1.
  rewrite merge_all_cons.
  pose proof (merge_adjustment_other cls k' v' e k Hne) as Hstep.
  destruct (run_result (merge_adjustment cls k' v' e)); cbn [fst outcome].
  - by rewrite IH.
  - exact Hstep.
Qed.

(** With an engine that keeps earlier adjustments, the merge stops with
    TypeError at the first label of the mapping that is recorded with a
    nonzero value, whatever the new value is; the labels before it are
    merged. *)
Lemma recorded_label_outcome
    (self : Compatibility) (e : Entry) (pre post : list (string * Z))
    (k : string) (v : Z) :
  clean self = false ->
  I1 e \/ num_atoms (composition e) <> 0 ->
  run_result (get_corrections_dict self e tt) = Ok (pre ++ (k, v) :: post)%list ->
  k ∉ pre.*1 ->
  num_truthy (stored e (class_name self) k) = true ->
  run_result (merge_all (class_name self) pre e) = Ok tt ->
  outcome (process_entry self e)
  = (run_state (merge_all (class_name self) pre e), Raise TypeError).
Proof.
  intros Hc Hat Hg Hk Hs Hpre.
  rewrite process_entry_outcome.
  assert (Hp : prepared self e = e) by (unfold prepared; by rewrite Hc).
  rewrite <- Hp in Hat at 1.
  pose proof (validate_corrections_passes self e Hat) as Hval.
  rewrite Hp in *. cbv zeta. rewrite Hval, Hg.
  change (run_result (merge_all (class_name self) (pre ++ (k, v) :: post)%list e))
    with (outcome (merge_all (class_name self) (pre ++ (k, v) :: post)%list e)).2.
  change (run_state (merge_all (class_name self) (pre ++ (k, v) :: post)%list e))
    with (outcome (merge_all (class_name self) (pre ++ (k, v) :: post)%list e)).1.
  rewrite merge_all_app, Hpre, merge_all_cons.
  set (e1 := run_state (merge_all (class_name self) pre e)).
  assert (Ht : num_truthy (stored e1 (class_name self) k) = true).
  { unfold e1. by rewrite merge_all_other. }
  pose proof (merge_adjustment_recorded (class_name self) k v e1 Ht) as Ho.
  pose proof (f_equal fst Ho) as Ho1. pose proof (f_equal snd Ho) as Ho2.
  cbn [outcome fst snd] in Ho1, Ho2. by rewrite Ho2, Ho1.
Qed.

(** C2, as the code has it.  Take an engine that keeps earlier adjustments
    and an entry that passes validation (it satisfies I1 or has atoms)
    whose Ledger records, under the source key of the engine, a nonzero
    value [V] for a label for which the rule set computes another value
    [v].  Then [process_entry] does not return the entry, and the merge is
    not undone: the entry is left in the state it has once the labels that
    come before the conflicting one in the mapping are merged; the labels
    that come after it are not applied. *)
Theorem conflicting_label_stops_merge
    (self : Compatibility) (e : Entry) (pre post : list (string * Z))
    (k : string) (v V : Z) :
  clean self = false ->
  I1 e \/ num_atoms (composition e) <> 0 ->
  stored e (class_name self) k = Some V ->
  V <> 0 ->
  v <> V ->
  run_result (get_corrections_dict self e tt) = Ok (pre ++ (k, v) :: post)%list ->
  k ∉ pre.*1 ->
  run_result (merge_all (class_name self) pre e) = Ok tt ->
  let r := process_entry self e in
  (forall e', run_result r <> Ok (Some e'))
  /\ run_state r = run_state (merge_all (class_name self) pre e).
Proof.
  intros Hc Hat Hs HV Hv Hg Hk Hpre r. subst r.
  assert (Ht : num_truthy (stored e (class_name self) k) = true).
  { rewrite Hs. unfold num_truthy. by apply negb_true_iff, Z.eqb_neq. }
  pose proof (recorded_label_outcome self e pre post k v Hc Hat Hg Hk Ht Hpre)
    as Ho.
  pose proof (f_equal fst Ho) as Ho1. pose proof (f_equal snd Ho) as Ho2.
  cbn [outcome fst snd] in Ho1, Ho2. rewrite Ho1, Ho2.
  split; [discriminate | reflexivity].
Qed.

Lemma conflicting_label_stops_merge_witness :
  let r := process_entry (as_Compatibility engine_a_b) entry_O4_stored_b in
  (forall e', run_result r <> Ok (Some e'))
  /\ run_state r
     = run_state (merge_all "CorrectionsList" [("a", 1)] entry_O4_stored_b).
Proof.
  apply (conflicting_label_stops_merge (as_Compatibility engine_a_b)
           entry_O4_stored_b [("a", 1)] [] "b" 7 5).
  - reflexivity.
  - left. reflexivity.
  - reflexivity.
  - lia.
  - lia.
  - vm_compute. reflexivity.
  - intros Hk. apply elem_of_cons in Hk as [Hk|Hk]; [discriminate|].
    by apply elem_of_nil in Hk.
  - vm_compute. reflexivity.
Defined.

(** C2 as stated fails: the Ledger of the entry records 5 for "b", the rule
    set computes 1 for "a" and 7 for "b"; after [process_entry] the entry
    has correction 6 and "a" recorded, where the claim wants it rejected
    with [correction] and Ledger as they were. *)
Lemma conflicting_merge_is_partial :
  let r := process_entry (as_Compatibility engine_a_b) entry_O4_stored_b in
  stored entry_O4_stored_b "CorrectionsList" "b" = Some 5
  /\ run_result (get_corrections_dict (as_Compatibility engine_a_b)
                   entry_O4_stored_b tt) = Ok [("a", 1); ("b", 7)]
  /\ correction entry_O4_stored_b = 5
  /\ correction (run_state r) = 6
  /\ stored (run_state r) "CorrectionsList" "a" = Some 1
  /\ ~ (run_result r = Ok None
        /\ correction (run_state r) = correction entry_O4_stored_b
        /\ energy_adjustments (data (run_state r))
           = energy_adjustments (data entry_O4_stored_b)).
Proof.
  cbv zeta. repeat split; try (vm_compute; reflexivity).
  intros (Hr & _). vm_compute in Hr. discriminate.
Qed.

(** ** C7: a batch of entries *)

(** [process_entry] absorbs CompatibilityError. *)
Lemma process_entry_no_CompatibilityError self e :
  run_result (process_entry self e) <> Raise CompatibilityError.
Proof.
  rewrite process_entry_result, process_entry_outcome. cbv zeta.
  rewrite validate_corrections_result.
  destruct (negb _); [destruct (Z.eqb _ _); [discriminate|]|].
  all: destruct (run_result (get_corrections_dict _ _ _)) as [corr|x];
    [destruct (run_result (merge_all _ _ _)) as [[]|x]; [discriminate|]|];
    destruct x; discriminate.
Qed.

Lemma process_entry_ref_outcome self l h :
  outcome (process_entry_ref self l h) =
  (upd h l (run_state (process_entry self (h l))),
   match run_result (process_entry self (h l)) with
   | Ok (Some _) => Ok (Some l)
   | Ok None => Ok None
   | Raise x => Raise x
   end).
Proof.
  unfold process_entry_ref. rewrite outcome_bind.
  unfold at_ref. cbn [run_result run_state].
  destruct (run_result (process_entry self (h l))) as [[e'|]|x]; reflexivity.
Qed.

Lemma process_entries_cons self l ls h :
  outcome (process_entries self (l :: ls) h) =
  let r1 := process_entry self (h l) in
  let r2 := process_entries self ls (upd h l (run_state r1)) in
  match run_result r1 with
  | Raise x => (upd h l (run_state r1), Raise x)
  | Ok o =>
      match run_result r2 with
      | Ok rest => (run_state r2, Ok (if is_returned (run_result r1)
                                      then l :: rest else rest))
      | Raise x => (run_state r2, Raise x)
      end
  end.
Proof.
  cbn [process_entries]. rewrite outcome_bind.
  pose proof (process_entry_ref_outcome self l h) as Ho.
  pose proof (f_equal fst Ho) as Ho1. pose proof (f_equal snd Ho) as Ho2.
  cbn [outcome fst snd] in Ho1, Ho2. rewrite Ho1, Ho2. cbv zeta.
  destruct (run_result (process_entry self (h l))) as [[e'|]|x];
    [| |reflexivity]; rewrite outcome_bind;
    destruct (run_result (process_entries self ls _)); reflexivity.
Qed.

Lemma process_entries_no_CompatibilityError self ls : forall h,
  run_result (process_entries self ls h) <> Raise CompatibilityError.
Proof.
  induction ls as [|l ls IH]; intros h; [discriminate|].
  change (run_result (process_entries self (l :: ls) h))
    with (outcome (process_entries self (l :: ls) h)).2.
  rewrite process_entries_cons. cbv zeta.
  pose proof (process_entry_no_CompatibilityError self (h l)) as H1.
  destruct (run_result (process_entry self (h l))) as [o|x].
  2:{ cbn [snd]. intros [= ->]. by apply H1. }
  pose proof (IH (upd h l (run_state (process_entry self (h l))))) as H2.
  destruct (run_result (process_entries self ls _)); [discriminate|].
  cbn [snd]. intros [= ->]. by apply H2.
Qed.

Lemma upd_same h l e : upd h l e l = e.
Proof. unfold upd. by rewrite Nat.eqb_refl. Qed.

Lemma upd_other h l e l' : l' <> l -> upd h l e l' = h l'.
Proof. unfold upd. intros H. by apply Nat.eqb_neq in H as ->. Qed.

Lemma filter_ext_elem {A} (P Q : A -> Prop)
    `{!forall x, Decision (P x)} `{!forall x, Decision (Q x)} (l : list A) :
  (forall x, x ∈ l -> P x <-> Q x) -> filter P l = filter Q l.
Proof.
  induction l as [|a l IH]; intros Hext; [reflexivity|].
  rewrite !filter_cons.
  rewrite IH by (intros x Hx; apply Hext; by right).
  destruct (decide (P a)) as [HP|HP], (decide (Q a)) as [HQ|HQ]; try reflexivity.
  - exfalso. apply HQ, Hext; [by left | exact HP].
  - exfalso. apply HP, Hext; [by left | exact HQ].
Qed.

(** When no call raises, the batch returns the references whose entry was
    returned, in order, and every entry is left as its own call leaves it. *)
Lemma process_entries_ok self ls : forall h,
  NoDup ls ->
  (forall l, l ∈ ls -> forall x, run_result (process_entry self (h l)) <> Raise x) ->
  run_result (process_entries self ls h)
    = Ok (filter (fun l => is_returned (run_result (process_entry self (h l)))) ls)
  /\ (forall l, run_state (process_entries self ls h) l
               = if decide (l ∈ ls) then run_state (process_entry self (h l))
                 else h l).
Proof.
  induction ls as [|l ls IH]; intros h Hnd Hok.
  - split; [reflexivity|]. intros l. by rewrite decide_False by apply not_elem_of_nil.
  - apply NoDup_cons in Hnd as [Hl Hnd].
    change (run_result (process_entries self (l :: ls) h))
      with (outcome (process_entries self (l :: ls) h)).2.
    change (run_state (process_entries self (l :: ls) h))
      with (outcome (process_entries self (l :: ls) h)).1.
    rewrite process_entries_cons. cbv zeta.
    set (h1 := upd h l (run_state (process_entry self (h l)))).
    assert (Hh1 : forall l', l' ∈ ls -> h1 l' = h l').
    { intros l' Hl'. unfold h1. apply upd_other. intros ->. done. }
    destruct (IH h1 Hnd) as [Hr Hs].
    { intros l' Hl' x. rewrite Hh1 by done. apply Hok. by right. }
    destruct (run_result (process_entry self (h l))) as [o|x] eqn:H1.
    2:{ exfalso. apply (Hok l (ltac:(by left)) x). exact H1. }
    rewrite Hr. cbn [fst snd]. split.
    + rewrite filter_cons.
      rewrite (filter_ext_elem
                 (fun l0 => is_returned (run_result (process_entry self (h1 l0))))
                 (fun l0 => is_returned (run_result (process_entry self (h l0))))).
      2:{ intros l' Hl'. by rewrite Hh1. }
      rewrite H1. destruct o; reflexivity.
    + intros l0. rewrite Hs.
      destruct (decide (l0 = l)) as [->|Hne].
      * rewrite decide_False by exact Hl.
        rewrite decide_True by (by left). unfold h1. apply upd_same.
      * destruct (decide (l0 ∈ ls)) as [Hin|Hin].
        -- rewrite decide_True by (by right). by rewrite Hh1.
        -- rewrite decide_False.
           ++ unfold h1. by apply upd_other.
           ++ intros Hc. apply elem_of_cons in Hc as [?|?]; done.
Qed.

(** The first call that raises ends the batch with its exception. *)
Lemma process_entries_raises self pre l post x : forall h,
  NoDup (pre ++ [l])%list ->
  (forall l', l' ∈ pre -> forall x', run_result (process_entry self (h l')) <> Raise x') ->
  run_result (process_entry self (h l)) = Raise x ->
  run_result (process_entries self (pre ++ l :: post)%list h) = Raise x.
Proof.
  induction pre as [|l0 pre IH]; intros h Hnd Hok Hx.
  - cbn [app].
    change (run_result (process_entries self (l :: post) h))
      with (outcome (process_entries self (l :: post) h)).2.
    rewrite process_entries_cons. cbv zeta. by rewrite Hx.
  - cbn [app] in *. apply NoDup_cons in Hnd as [Hl0 Hnd].
    change (run_result (process_entries self (l0 :: (pre ++ l :: post)%list) h))
      with (outcome (process_entries self (l0 :: (pre ++ l :: post)%list) h)).2.
    rewrite process_entries_cons. cbv zeta.
    set (h1 := upd h l0 (run_state (process_entry self (h l0)))).
    assert (Hh1 : forall l', l' ∈ (pre ++ [l])%list -> h1 l' = h l').
    { intros l' Hl'. unfold h1. apply upd_other. intros ->. done. }
    assert (Hrest : run_result (process_entries self (pre ++ l :: post)%list h1)
                    = Raise x).
    { apply IH; [exact Hnd | |].
      - intros l' Hl' x'. rewrite Hh1 by (apply elem_of_app; by left).
        apply Hok. by right.
      - rewrite Hh1; [exact Hx|]. apply elem_of_app. right. by left. }
    destruct (run_result (process_entry self (h l0))) as [o|x0] eqn:H0.
    + by rewrite Hrest.
    + exfalso. apply (Hok l0 (ltac:(by left)) x0). exact H0.
Qed.

(** Whatever the batch returns is a subsequence of the input. *)
Lemma process_entries_sublist self ls : forall h out,
  run_result (process_entries self ls h) = Ok out -> sublist out ls.
Proof.
  induction ls as [|l ls IH]; intros h out Hout.
  - injection Hout as <-. constructor.
  - change (run_result (process_entries self (l :: ls) h))
      with (outcome (process_entries self (l :: ls) h)).2 in Hout.
    rewrite process_entries_cons in Hout. cbv zeta in Hout.
    destruct (run_result (process_entry self (h l))) as [o|x]; [|discriminate].
    destruct (run_result (process_entries self ls _)) as [rest|x] eqn:Hrest;
      [|discriminate].
    cbn [snd] in Hout. injection Hout as <-.
    apply IH in Hrest.
    destruct o; cbn [is_returned].
    + by apply sublist_skip.
    + by apply sublist_cons.
Qed.

(** C7, as the code has it.  [process_entries] calls [process_entry] on
    each entry of the sequence in order.  CompatibilityError never leaves
    it, and what it returns is a subsequence of its input: the relative
    order is kept.  For distinct entry objects: when no call raises, it
    returns the entries that [process_entry] returned, dropping those for
    which it returned [None], and every entry of the sequence is left as
    its own call leaves it, the other objects untouched; any other
    exception of a call ends the batch, the first call that raises making
    [process_entries] raise the same exception. *)
Theorem process_entries_batch (self : Compatibility) (ls : list nat) (h : Heap) :
  let r := process_entries self ls h in
  run_result r <> Raise CompatibilityError
  /\ (forall out, run_result r = Ok out -> sublist out ls)
  /\ (NoDup ls ->
      (forall l, l ∈ ls ->
         forall x, run_result (process_entry self (h l)) <> Raise x) ->
      run_result r
        = Ok (filter (fun l => is_returned (run_result (process_entry self (h l))))
                     ls)
      /\ (forall l, run_state r l
                    = if decide (l ∈ ls)
                      then run_state (process_entry self (h l)) else h l))
  /\ (forall pre l post x,
        ls = (pre ++ l :: post)%list ->
        NoDup (pre ++ [l])%list ->
        (forall l', l' ∈ pre ->
           forall x', run_result (process_entry self (h l')) <> Raise x') ->
        run_result (process_entry self (h l)) = Raise x ->
        run_result r = Raise x).
Proof.
  intros r. subst r. split; [apply process_entries_no_CompatibilityError|].
  split; [apply process_entries_sublist|].
  split; [apply process_entries_ok|].
  intros pre l post x -> Hnd Hok Hx.
  by apply process_entries_raises.
Qed.

Lemma process_entries_batch_witness :
  run_result (process_entries (as_Compatibility u_engine) [0; 1; 2]%nat batch_heap)
  = Ok [0; 2]%nat.
Proof.
  destruct (process_entries_batch (as_Compatibility u_engine) [0; 1; 2]%nat
              batch_heap) as (_ & _ & Hok & _).
  destruct Hok as [Hr _].
  - apply NoDup_ListNoDup. repeat constructor; cbn; intuition discriminate.
  - intros l Hl x.
    apply elem_of_cons in Hl as [->|Hl]; [vm_compute; discriminate|].
    apply elem_of_cons in Hl as [->|Hl]; [vm_compute; discriminate|].
    apply elem_of_cons in Hl as [->|Hl]; [vm_compute; discriminate|].
    by apply elem_of_nil in Hl.
  - rewrite Hr. vm_compute. reflexivity.
Defined.

(** C7 as stated fails: an entry without [potcar_spec] under a
    [PotcarCorrection] that checks hashes makes the rule raise ValueError,
    which [process_entry] does not catch: the batch raises. *)
Lemma process_entries_lets_ValueError_out :
  potcar_spec (parameters (batch_heap 0%nat)) = None
  /\ run_result (process_entries (as_Compatibility potcar_engine) [0; 1; 2]%nat
                   batch_heap) = Raise ValueError.
Proof. split; vm_compute; reflexivity. Qed.

(** * Further properties of the module *)

(** ** The dict of [CorrectionsList.get_corrections_dict] *)

Lemma reader_state (A : Type) (m : Reader A) : run_state (m tt) = tt.
Proof. by destruct (run_state (m tt)). Qed.

Lemma dict_setitem_fresh {V} k (v : V) d :
  k ∉ d.*1 -> dict_setitem k v d = (d ++ [(k, v)])%list.
Proof.
  induction d as [|[k' v'] d IH]; intros Hk; [reflexivity|].
  cbn [fmap list_fmap fst] in Hk. apply not_elem_of_cons in Hk as [Hne Hk].
  cbn [dict_setitem app].
  destruct (String.eqb_spec k' k) as [->|_]; [done|]. by rewrite IH.
Qed.

Lemma dict_setitem_keys_present {V} k (v : V) d :
  k ∈ d.*1 -> (dict_setitem k v d).*1 = d.*1.
Proof.
  induction d as [|[k' v'] d IH]; intros Hk; [by apply elem_of_nil in Hk|].
  cbn [dict_setitem].
  destruct (String.eqb_spec k' k) as [->|Hne]; [reflexivity|].
  cbn [fmap list_fmap fst] in *. apply elem_of_cons in Hk as [->|Hk]; [done|].
  f_equal. by apply IH.
Qed.

Lemma dict_setitem_keys {V} k (v : V) d :
  (dict_setitem k v d).*1
  = if decide (k ∈ d.*1) then d.*1 else (d.*1 ++ [k])%list.
Proof.
  destruct (decide (k ∈ d.*1)) as [Hk|Hk].
  - by apply dict_setitem_keys_present.
  - rewrite dict_setitem_fresh by done. by rewrite fmap_app.
Qed.

Lemma dict_setitem_Forall {V} (P : string * V -> Prop) k v d :
  P (k, v) -> Forall P d -> Forall P (dict_setitem k v d).
Proof.
  intros Hkv. induction 1 as [|[k' v'] d Hx Hd IH]; cbn [dict_setitem].
  - by repeat constructor.
  - destruct (String.eqb k' k); by constructor.
Qed.

Lemma dict_setitem_NoDup {V} k (v : V) d :
  NoDup d.*1 -> NoDup (dict_setitem k v d).*1.
Proof.
  intros Hnd. rewrite dict_setitem_keys.
  destruct (decide (k ∈ d.*1)) as [Hk|Hk]; [done|].
  apply NoDup_app. split; [done|]. split; [|apply NoDup_singleton].
  intros x Hx Hx'. apply elem_of_cons in Hx' as [->|Hx']; [done|].
  by apply elem_of_nil in Hx'.
Qed.

Lemma corrections_loop_cons c cs e acc :
  run_result (corrections_loop (c :: cs) e acc tt) =
  match run_result (get_correction c e tt) with
  | Ok val =>
      run_result (corrections_loop cs e
                    (if negb (Z.eqb val 0) then dict_setitem (str c) val acc
                     else acc) tt)
  | Raise x => Raise x
  end.
Proof.
  cbn [corrections_loop]. rewrite run_result_bind.
  destruct (run_result (get_correction c e tt)); [|reflexivity].
  by rewrite reader_state.
Qed.

Lemma corrections_loop_dict cs e : forall acc corr,
  run_result (corrections_loop cs e acc tt) = Ok corr ->
  NoDup acc.*1 -> Forall (fun kv => kv.2 <> 0) acc ->
  NoDup corr.*1 /\ Forall (fun kv => kv.2 <> 0) corr
  /\ corr.*1 ⊆ (acc.*1 ++ (str <$> cs))%list.
Proof.
  induction cs as [|c cs IH]; intros acc corr Hr Hnd Hnz.
  - injection Hr as <-. repeat split; [done..|].
    intros x Hx. apply elem_of_app. by left.
  - rewrite corrections_loop_cons in Hr.
    destruct (run_result (get_correction c e tt)) as [val|x]; [|discriminate].
    destruct (Z.eqb val 0) eqn:Hval; cbn [negb] in Hr.
    + destruct (IH _ _ Hr Hnd Hnz) as (H1 & H2 & H3).
      repeat split; [done..|]. cbn [fmap list_fmap].
      intros x Hx. apply H3, elem_of_app in Hx as [Hx|Hx]; apply elem_of_app;
        [by left | right; by right].
    + apply Z.eqb_neq in Hval.
      destruct (IH _ _ Hr) as (H1 & H2 & H3).
      * by apply dict_setitem_NoDup.
      * by apply dict_setitem_Forall.
      * repeat split; [done..|]. rewrite dict_setitem_keys in H3.
        cbn [fmap list_fmap]. intros x Hx. apply H3 in Hx.
        destruct (decide _) as [Hin|Hin];
          apply elem_of_app in Hx as [Hx|Hx]; apply elem_of_app.
        -- by left.
        -- right; by right.
        -- apply elem_of_app in Hx as [Hx|Hx]; [by left|].
           apply elem_of_cons in Hx as [->|Hx]; [right; by left|].
           by apply elem_of_nil in Hx.
        -- right; by right.
Qed.

Lemma get_corrections_dict_dict_aux
    (self : CorrectionsList) (e : Entry) (corr : list (string * Z)) :
  run_result (CorrectionsList_get_corrections_dict self e tt) = Ok corr ->
  NoDup corr.*1
  /\ Forall (fun kv => kv.2 <> 0) corr
  /\ corr.*1 ⊆ str <$> corrections self.
Proof.
  intros Hr. unfold CorrectionsList_get_corrections_dict in Hr.
  destruct (corrections_loop_dict _ _ _ _ Hr) as (H1 & H2 & H3);
    [constructor | constructor |].
  repeat split; done.
Qed.

(** X1. The mapping [get_corrections_dict] returns is a dict without zeros:
    its labels are distinct, each is the name of a rule of the list, and no
    value is zero. *)
Theorem get_corrections_dict_is_dict
    (self : CorrectionsList) (e : Entry) (corr : list (string * Z)) :
  run_result (CorrectionsList_get_corrections_dict self e tt) = Ok corr ->
  NoDup corr.*1
  /\ Forall (fun kv => kv.2 <> 0) corr
  /\ corr.*1 ⊆ str <$> corrections self.
Proof. apply get_corrections_dict_dict_aux. Qed.

Lemma get_corrections_dict_is_dict_witness :
  let corr := [("MP Gas Correction", -7)] in
  NoDup corr.*1
  /\ Forall (fun kv => kv.2 <> 0) corr
  /\ corr.*1 ⊆ str <$> corrections gas_engine.
Proof.
  apply (get_corrections_dict_is_dict gas_engine entry_O4).
  vm_compute. reflexivity.
Defined.

Lemma corrections_loop_values cs e : forall vs acc,
  Forall2 (fun c v => run_result (get_correction c e tt) = Ok v) cs vs ->
  NoDup (acc.*1 ++ (str <$> cs))%list ->
  run_result (corrections_loop cs e acc tt)
  = Ok (acc ++ filter (fun kv => kv.2 <> 0) (zip (str <$> cs) vs))%list.
Proof.
  induction cs as [|c cs IH]; intros vs acc Hvs Hnd.
  - apply Forall2_nil_inv_l in Hvs as ->. cbn. by rewrite app_nil_r.
  - apply Forall2_cons_inv_l in Hvs as (v & vs' & Hv & Hvs & ->).
    rewrite corrections_loop_cons, Hv.
    cbn [fmap list_fmap zip zip_with]. rewrite filter_cons. cbn [snd].
    cbn [fmap list_fmap] in Hnd.
    apply NoDup_app in Hnd as (Hacc & Hdis & Hcs).
    apply NoDup_cons in Hcs as [Hc Hcs].
    destruct (Z.eqb v 0) eqn:Hv0; cbn [negb];
      [apply Z.eqb_eq in Hv0 | apply Z.eqb_neq in Hv0].
    + rewrite decide_False by (intros H; by apply H).
      apply (IH vs'); [done|]. apply NoDup_app. repeat split; [done| |done].
      intros x Hx Hx'. apply (Hdis x Hx). by right.
    + rewrite decide_True by done.
      rewrite dict_setitem_fresh.
      2:{ intros Hin. apply (Hdis _ Hin). by left. }
      rewrite (IH vs'); [by rewrite <- app_assoc|done|].
      rewrite fmap_app. cbn [fmap list_fmap fst].
      rewrite <- app_assoc. cbn [app].
      apply NoDup_app. repeat split; [done| |by apply NoDup_cons].
      intros x Hx Hx'. by apply (Hdis x Hx).
Qed.

(** X2. When the rules of the list have distinct names and each returns a
    value, [get_corrections_dict] returns, in the order of the list, the
    name and the value of every rule whose value is not zero. *)
Theorem get_corrections_dict_values
    (self : CorrectionsList) (e : Entry) (vs : list Z) :
  NoDup (str <$> corrections self) ->
  Forall2 (fun c v => run_result (get_correction c e tt) = Ok v)
          (corrections self) vs ->
  run_result (CorrectionsList_get_corrections_dict self e tt)
  = Ok (filter (fun kv => kv.2 <> 0) (zip (str <$> corrections self) vs)).
Proof.
  intros Hnd Hvs. unfold CorrectionsList_get_corrections_dict.
  by rewrite (corrections_loop_values _ _ vs []).
Qed.

Lemma get_corrections_dict_values_witness :
  run_result (CorrectionsList_get_corrections_dict engine_a_z_b entry_O4 tt)
  = Ok [("a", 1); ("b", 7)].
Proof.
  apply (get_corrections_dict_values engine_a_z_b entry_O4 [1; 0; 7]).
  - apply NoDup_ListNoDup. repeat constructor; cbn; intuition discriminate.
  - repeat constructor.
Defined.

Lemma run_warnings_bind {S A B} (m : M S A) (f : A -> M S B) s :
  run_warnings (bind m f s) =
  match run_result (m s) with
  | Ok a => (run_warnings (m s) ++ run_warnings (f a (run_state (m s))))%list
  | Raise _ => run_warnings (m s)
  end.
Proof. unfold bind. destruct (run_result (m s)); reflexivity. Qed.

Lemma corrections_loop_failure pre c post e x : forall vs acc,
  Forall2 (fun c v => run_result (get_correction c e tt) = Ok v) pre vs ->
  run_result (get_correction c e tt) = Raise x ->
  run_result (corrections_loop (pre ++ c :: post)%list e acc tt) = Raise x
  /\ run_warnings (corrections_loop (pre ++ c :: post)%list e acc tt)
     = (concat ((fun c => run_warnings (get_correction c e tt)) <$> pre)
        ++ run_warnings (get_correction c e tt))%list.
Proof.
  induction pre as [|c0 pre IH]; intros vs acc Hvs Hx.
  - cbn [app corrections_loop]. rewrite run_result_bind, run_warnings_bind, Hx.
    done.
  - apply Forall2_cons_inv_l in Hvs as (v & vs' & Hv & Hvs & ->).
    cbn [app corrections_loop].
    rewrite run_result_bind, run_warnings_bind, Hv, reader_state.
    destruct (IH vs' (if negb (Z.eqb v 0) then dict_setitem (str c0) v acc
                      else acc) Hvs Hx) as [Hr Hw].
    split; [exact Hr|]. rewrite Hw. cbn [fmap list_fmap concat].
    by rewrite <- app_assoc.
Qed.

(** X3. [get_corrections_dict] stops at the first rule that raises: it
    raises the exception of that rule, and the warnings of the call are
    those of the rules up to and including it; the rules after it are not
    evaluated. *)
Theorem get_corrections_dict_first_failure
    (self : CorrectionsList) (e : Entry) (pre post : list Correction)
    (c : Correction) (vs : list Z) (x : exn) :
  corrections self = (pre ++ c :: post)%list ->
  Forall2 (fun c v => run_result (get_correction c e tt) = Ok v) pre vs ->
  run_result (get_correction c e tt) = Raise x ->
  run_result (CorrectionsList_get_corrections_dict self e tt) = Raise x
  /\ run_warnings (CorrectionsList_get_corrections_dict self e tt)
     = (concat ((fun c => run_warnings (get_correction c e tt)) <$> pre)
        ++ run_warnings (get_correction c e tt))%list.
Proof.
  intros Hcs Hvs Hx. unfold CorrectionsList_get_corrections_dict.
  rewrite Hcs. by apply (corrections_loop_failure pre c post e x vs).
Qed.

Lemma get_corrections_dict_first_failure_witness :
  run_result (CorrectionsList_get_corrections_dict engine_a_reject_b entry_O4 tt)
    = Raise CompatibilityError
  /\ run_warnings (CorrectionsList_get_corrections_dict engine_a_reject_b
                     entry_O4 tt)
     = [NoStructureOrOxideType].
Proof.
  apply (get_corrections_dict_first_failure engine_a_reject_b entry_O4
           [constant_rule "a" 1] [constant_rule "b" 7] (rejecting_rule "r") [1]
           CompatibilityError).
  - reflexivity.
  - repeat constructor.
  - reflexivity.
Defined.

(** ** Outcomes of [process_entry] *)

(** The merge step returns or raises TypeError; it has no warning. *)
Lemma merge_adjustment_result cls k v e :
  (run_result (merge_adjustment cls k v e) = Ok tt
   \/ run_result (merge_adjustment cls k v e) = Raise TypeError)
  /\ run_warnings (merge_adjustment cls k v e) = [].
Proof.
  rewrite merge_adjustment_eq.
  destruct (dict_truthy _); [|by split; [left|]]. cbv zeta.
  destruct (dict_truthy _); [|by split; [left|]].
  destruct (num_truthy _); [|by split; [left|]].
  rewrite outer_get_ne_num. unfold outer_get.
  destruct (_ !! k); by split; [right|].
Qed.

Lemma merge_all_result cls corr : forall e,
  (run_result (merge_all cls corr e) = Ok tt
   \/ run_result (merge_all cls corr e) = Raise TypeError)
  /\ run_warnings (merge_all cls corr e) = [].
Proof.
  unfold merge_all.
  induction corr as [|[k v] corr IH]; intros e; [by split; [left|]|].
  cbn [for_each]. rewrite run_result_bind, run_warnings_bind. cbn [fst snd].
  destruct (merge_adjustment_result cls k v e) as [[Hr|Hr] Hw]; rewrite Hr, Hw.
  - destruct (IH (run_state (merge_adjustment cls k v e))) as [H1 H2].
    by rewrite H2.
  - by split; [right|].
Qed.

(** X4. When validation passes (the entry the rules see satisfies I1 or
    has atoms), [process_entry] returns [None] exactly when the rule set
    raises CompatibilityError, and the entry is then left as the rules saw
    it: reset, when the engine cleans.  The conflict branch of the merge
    never produces a rejection. *)
Theorem process_entry_rejects_iff (self : Compatibility) (e : Entry) :
  I1 (prepared self e) \/ num_atoms (composition e) <> 0 ->
  (run_result (process_entry self e) = Ok None
   <-> run_result (get_corrections_dict self (prepared self e) tt)
       = Raise CompatibilityError)
  /\ (run_result (process_entry self e) = Ok None ->
      run_state (process_entry self e) = prepared self e).
Proof.
  intros Hval.
  rewrite process_entry_result, process_entry_state, process_entry_outcome.
  cbv zeta. rewrite (validate_corrections_passes self e Hval).
  destruct (run_result (get_corrections_dict self (prepared self e) tt))
    as [corr|x].
  - destruct (merge_all_result (class_name self) corr (prepared self e))
      as [[Hr|Hr] _]; rewrite Hr; cbn [fst snd]; by repeat split.
  - destruct x; cbn [fst snd]; by repeat split.
Qed.

Lemma process_entry_rejects_iff_witness :
  run_result (process_entry (as_Compatibility u_engine) entry_Fe2O3_HF) = Ok None
  /\ run_state (process_entry (as_Compatibility u_engine) entry_Fe2O3_HF)
     = prepared (as_Compatibility u_engine) entry_Fe2O3_HF.
Proof.
  destruct (process_entry_rejects_iff (as_Compatibility u_engine) entry_Fe2O3_HF)
    as [Hiff Hst].
  - left. reflexivity.
  - assert (Hr : run_result (process_entry (as_Compatibility u_engine)
                               entry_Fe2O3_HF) = Ok None).
    { apply Hiff. vm_compute. reflexivity. }
    split; [exact Hr | exact (Hst Hr)].
Defined.

(** ** [process_entry] with an engine that cleans *)

Lemma dict_get_elem {V} k (v : V) d :
  NoDup d.*1 -> (k, v) ∈ d -> dict_get k d = Some v.
Proof.
  induction d as [|[k' v'] d IH]; intros Hnd Hin; [by apply elem_of_nil in Hin|].
  cbn [fmap list_fmap fst] in Hnd. apply NoDup_cons in Hnd as [Hk Hnd].
  cbn [dict_get]. apply elem_of_cons in Hin as [Heq|Hin].
  - injection Heq as -> ->. by rewrite String.eqb_refl.
  - destruct (String.eqb_spec k' k) as [->|_]; [|by apply IH].
    exfalso. apply Hk. apply list_elem_of_fmap. by exists (k, v).
Qed.

Lemma dict_get_None {V} k (d : list (string * V)) :
  k ∉ d.*1 -> dict_get k d = None.
Proof.
  induction d as [|[k' v'] d IH]; intros Hk; [reflexivity|].
  cbn [fmap list_fmap fst] in Hk. apply not_elem_of_cons in Hk as [Hne Hk].
  cbn [dict_get]. destruct (String.eqb_spec k' k) as [->|_]; [done|].
  by apply IH.
Qed.

Lemma dict_get_Some_elem {V} k (v : V) d :
  dict_get k d = Some v -> (k, v) ∈ d.
Proof.
  induction d as [|[k' v'] d IH]; [discriminate|]. cbn [dict_get].
  destruct (String.eqb_spec k' k) as [->|_].
  - intros [= ->]. by left.
  - intros H. right. by apply IH.
Qed.

(** Merging under one source key does not touch the other sources. *)
Lemma merge_adjustment_other_source cls k v e cls' k' :
  cls' <> cls ->
  stored (run_state (merge_adjustment cls k v e)) cls' k' = stored e cls' k'.
Proof.
  intros Hne. rewrite merge_adjustment_eq.
  destruct (dict_truthy (energy_adjustments (data e))) eqn:Hadj.
  - apply dict_truthy_Some in Hadj as Ha.
    set (adj := default ∅ (energy_adjustments (data e))) in *. cbv zeta.
    assert (Hst : stored e cls' k' = inner ← adj !! cls'; inner !! k').
    { unfold stored. by rewrite Ha. }
    destruct (dict_truthy (adj !! cls)).
    + destruct (num_truthy _).
      * destruct (py_eq _ _); [reflexivity|]. by destruct (outer_get adj k).
      * cbn [run_state]. by rewrite stored_set, lookup_insert_ne, Hst.
    + cbn [run_state]. by rewrite stored_set, lookup_insert_ne, Hst.
  - cbn [run_state]. rewrite stored_set, lookup_singleton_ne by done.
    symmetry. by apply stored_no_ledger.
Qed.

Lemma merge_all_other_source cls corr cls' k' : forall e,
  cls' <> cls ->
  stored (run_state (merge_all cls corr e)) cls' k' = stored e cls' k'.
Proof.
  induction corr as [|[k v] corr IH]; intros e Hne; [reflexivity|].
  change (run_state (merge_all cls ((k, v) :: corr) e))
    with (outcome (merge_all cls ((k, v) :: corr) e)).1.
  rewrite merge_all_cons.
  pose proof (merge_adjustment_other_source cls k v e cls' k' Hne) as Hstep.
  destruct (run_result (merge_adjustment cls k v e)); cbn [fst outcome].
  - by rewrite IH.
  - exact Hstep.
Qed.

Lemma merge_all_nil_state cls e : run_state (merge_all cls [] e) = e.
Proof. reflexivity. Qed.

(** X5. With a [CorrectionsList] that cleans, whenever the rules return
    their values for the reset entry, [process_entry] returns the entry
    with: [correction] equal to the sum of the computed mapping, hence
    [energy] equal to the uncorrected energy plus that sum; under the
    source key of the engine exactly the labels and values of the
    mapping; nothing under any other source key; and no Ledger at all when
    every rule returned zero. *)
Theorem process_entry_clean_result
    (self : CorrectionsList) (e : Entry) (corr : list (string * Z)) :
  cl_clean self = true ->
  run_result (CorrectionsList_get_corrections_dict self (clean_entry e) tt)
    = Ok corr ->
  let r := process_entry (as_Compatibility self) e in
  run_result r = Ok (Some (run_state r))
  /\ correction (run_state r) = total corr
  /\ energy (run_state r) = uncorrected_energy e + total corr
  /\ (forall k, stored (run_state r) (cl_class_name self) k = dict_get k corr)
  /\ (forall cls' k, cls' <> cl_class_name self ->
        stored (run_state r) cls' k = None)
  /\ (corr = [] -> energy_adjustments (data (run_state r)) = None).
Proof.
  intros Hc Hg r. subst r.
  destruct (get_corrections_dict_dict_aux self (clean_entry e) corr Hg)
    as [Hnd _].
  pose proof (process_entry_frame (as_Compatibility self) e) as Hfr.
  revert Hfr.
  rewrite process_entry_result, process_entry_state, process_entry_outcome.
  unfold prepared. cbn [clean as_Compatibility class_name get_corrections_dict].
  rewrite Hc. cbv zeta.
  rewrite (validate_corrections_I1 _ (clean_entry_I1 e)), Hg.
  destruct (merge_all_fresh (cl_class_name self) corr (clean_entry e) Hnd)
    as (Hr & Hcorr & Hs & Ho); [reflexivity|].
  rewrite Hr. cbn [fst snd]. intros Hfr.
  split; [reflexivity|]. split; [rewrite Hcorr; cbn; lia|].
  split.
  { unfold energy. rewrite Hcorr.
    apply (f_equal uncorrected_energy) in Hfr. cbn in Hfr. rewrite Hfr.
    cbn. lia. }
  split.
  { intros k. destruct (dict_get k corr) as [v|] eqn:Hk.
    - apply Hs. by apply dict_get_Some_elem.
    - rewrite Ho; [reflexivity|]. intros Hin.
      apply list_elem_of_fmap in Hin as ([k0 v0] & -> & Hin). cbn [fst] in Hk.
      by rewrite (dict_get_elem _ _ _ Hnd Hin) in Hk. }
  split.
  { intros cls' k Hne. by rewrite merge_all_other_source. }
  intros ->. reflexivity.
Qed.

Lemma process_entry_clean_result_witness :
  let r := process_entry (as_Compatibility engine_a_z_b) entry_O4_stored_b in
  run_result r = Ok (Some (run_state r))
  /\ correction (run_state r) = 8
  /\ energy (run_state r) = -1
  /\ (forall k, stored (run_state r) "CorrectionsList" k
                = dict_get k [("a", 1); ("b", 7)])
  /\ (forall cls' k, cls' <> "CorrectionsList" ->
        stored (run_state r) cls' k = None)
  /\ ([("a", 1); ("b", 7)] = [] -> energy_adjustments (data (run_state r)) = None).
Proof.
  apply (process_entry_clean_result engine_a_z_b entry_O4_stored_b
           [("a", 1); ("b", 7)]).
  - reflexivity.
  - vm_compute. reflexivity.
Defined.

(** X6. Whatever its outcome (the entry, [None] or an exception),
    [process_entry] leaves the composition, the uncorrected energy, the
    parameters, the structure, the id and the other data of the entry as
    they were: it writes to [correction] and to the Ledger only. *)
Theorem process_entry_writes_adjustments_only (self : Compatibility) (e : Entry) :
  let e' := run_state (process_entry self e) in
  composition e' = composition e
  /\ uncorrected_energy e' = uncorrected_energy e
  /\ parameters e' = parameters e
  /\ structure e' = structure e
  /\ entry_id e' = entry_id e
  /\ oxide_type (data e') = oxide_type (data e)
  /\ sulfide_type (data e') = sulfide_type (data e).
Proof.
  cbv zeta. pose proof (process_entry_frame self e) as H.
  unfold same_but_adjustments in H.
  repeat split.
  - exact (f_equal composition H).
  - exact (f_equal uncorrected_energy H).
  - exact (f_equal parameters H).
  - exact (f_equal structure H).
  - exact (f_equal entry_id H).
  - exact (f_equal (fun x => oxide_type (data x)) H).
  - exact (f_equal (fun x => sulfide_type (data x)) H).
Qed.

(** X7. With an engine that cleans, processing an entry that was already
    processed by it repeats the first run: same result, same state of the
    entry, same warnings. *)
Theorem process_entry_clean_repeats (self : Compatibility) (e : Entry) :
  clean self = true ->
  process_entry self (run_state (process_entry self e)) = process_entry self e.
Proof. apply process_entry_clean_idempotent. Qed.

Lemma process_entry_clean_repeats_witness :
  process_entry (as_Compatibility gas_engine)
    (run_state (process_entry (as_Compatibility gas_engine) entry_O4))
  = process_entry (as_Compatibility gas_engine) entry_O4.
Proof. apply (process_entry_clean_repeats (as_Compatibility gas_engine)). reflexivity. Defined.

Lemma validate_corrections_warnings e :
  run_warnings (validate_corrections e) =
  if negb (Z.eqb (correction e) (documented_correction e))
  then if Z.eqb (num_atoms (composition e)) 0 then []
       else [UnknownProvenance (correction e) (documented_correction e)]
  else [].
Proof.
  unfold validate_corrections, bind, get. cbn [run_result run_state run_warnings].
  destruct (negb _); [|reflexivity].
  destruct (Z.eqb _ _); reflexivity.
Qed.

(** X8. For an entry with atoms, [validate_corrections] never raises and
    never changes the entry; it is silent exactly when [correction] equals
    the sum of the values of the Ledger, and otherwise gives the one
    warning that names both numbers. *)
Theorem validate_corrections_warns_iff (e : Entry) :
  num_atoms (composition e) <> 0 ->
  run_result (validate_corrections e) = Ok tt
  /\ run_state (validate_corrections e) = e
  /\ (run_warnings (validate_corrections e) = []
      <-> correction e
          = sum_adjustments (default ∅ (energy_adjustments (data e))))
  /\ (run_warnings (validate_corrections e) <> [] ->
      run_warnings (validate_corrections e)
      = [UnknownProvenance (correction e)
           (sum_adjustments (default ∅ (energy_adjustments (data e))))]).
Proof.
  intros Hat. split; [by apply validate_corrections_atoms|].
  split; [apply validate_corrections_state|].
  rewrite validate_corrections_warnings, <- documented_correction_sum.
  apply Z.eqb_neq in Hat. rewrite Hat.
  destruct (Z.eqb_spec (correction e) (documented_correction e)) as [Heq|Hne];
    cbn [negb].
  - split; [by split | by intros H].
  - split; [split; [discriminate | by intros H] | by intros _].
Qed.

Lemma validate_corrections_warns_iff_witness :
  run_result (validate_corrections entry_O4_stored_b) = Ok tt
  /\ run_warnings (validate_corrections entry_O4_stored_b) = [].
Proof.
  destruct (validate_corrections_warns_iff entry_O4_stored_b)
    as (Hr & _ & Hw & _).
  - vm_compute. discriminate.
  - split; [exact Hr|]. apply Hw. vm_compute. reflexivity.
Defined.

(** X9. For an entry without atoms whose [correction] differs from the sum
    of its Ledger, [validate_corrections], and with it [process_entry] of
    an engine that keeps earlier adjustments, raises ZeroDivisionError
    (the warning text divides by the number of atoms) and leaves the
    entry as it is. *)
Theorem validate_corrections_no_atoms (self : Compatibility) (e : Entry) :
  num_atoms (composition e) = 0 ->
  correction e <> sum_adjustments (default ∅ (energy_adjustments (data e))) ->
  clean self = false ->
  outcome (validate_corrections e) = (e, Raise ZeroDivisionError)
  /\ outcome (process_entry self e) = (e, Raise ZeroDivisionError).
Proof.
  intros Hat Hne Hc.
  assert (Hv : run_result (validate_corrections e) = Raise ZeroDivisionError).
  { rewrite validate_corrections_result, Hat.
    rewrite <- documented_correction_sum in Hne.
    by apply Z.eqb_neq in Hne as ->. }
  split.
  - unfold outcome. by rewrite validate_corrections_state, Hv.
  - rewrite process_entry_outcome. unfold prepared. rewrite Hc. cbv zeta.
    by rewrite Hv.
Qed.

Lemma validate_corrections_no_atoms_witness :
  outcome (validate_corrections entry_no_atoms)
    = (entry_no_atoms, Raise ZeroDivisionError)
  /\ outcome (process_entry (engine_keep "A" "a" 1) entry_no_atoms)
     = (entry_no_atoms, Raise ZeroDivisionError).
Proof.
  apply (validate_corrections_no_atoms (engine_keep "A" "a" 1) entry_no_atoms).
  - reflexivity.
  - vm_compute. discriminate.
  - reflexivity.
Defined.

Lemma try_warnings {S A} (m : M S A) (a : A) s :
  run_warnings (try_except_CompatibilityError m (ret a) s) = run_warnings (m s).
Proof.
  unfold try_except_CompatibilityError.
  destruct (run_result (m s)) as [?|x]; [reflexivity|].
  destruct x; try reflexivity. cbn. by rewrite app_nil_r.
Qed.

Lemma process_entry_warnings self e :
  run_warnings (process_entry self e) =
  (run_warnings (validate_corrections (prepared self e))
   ++ match run_result (validate_corrections (prepared self e)) with
      | Ok _ => run_warnings (get_corrections_dict self (prepared self e) tt)
      | Raise _ => []
      end)%list.
Proof.
  unfold process_entry, prepared. rewrite run_warnings_bind.
  assert (Hprep : forall b : bool,
    run_result ((if b then modify clean_entry else ret tt) e) = Ok tt
    /\ run_state ((if b then modify clean_entry else ret tt) e)
       = (if b then clean_entry e else e)
    /\ run_warnings ((if b then modify clean_entry else ret tt) e) = []).
  { intros []; repeat split; reflexivity. }
  destruct (Hprep (clean self)) as (-> & -> & ->).
  set (e0 := if clean self then clean_entry e else e). cbn [app].
  rewrite run_warnings_bind, validate_corrections_state.
  destruct (run_result (validate_corrections e0)) as [[]|x];
    [|by rewrite app_nil_r].
  f_equal. rewrite try_warnings, run_warnings_bind.
  change (run_result (reading (get_corrections_dict self) e0))
    with (run_result (get_corrections_dict self e0 tt)).
  change (run_warnings (reading (get_corrections_dict self) e0))
    with (run_warnings (get_corrections_dict self e0 tt)).
  change (run_state (reading (get_corrections_dict self) e0)) with e0.
  destruct (run_result (get_corrections_dict self e0 tt)) as [corr|x];
    [|reflexivity].
  rewrite run_warnings_bind.
  destruct (merge_all_result (class_name self) corr e0) as [_ Hw].
  unfold merge_all in Hw. rewrite Hw.
  destruct (run_result (for_each corr _ e0)); cbn; by rewrite app_nil_r.
Qed.

(** X10. The warnings of [process_entry] are the warning of the validation
    of the entry the rules see, if any, followed by the warnings of the
    rules; the merge adds none.  With an engine that cleans there is never
    a warning about unknown provenance: the warnings are those of the
    rules. *)
Theorem process_entry_warnings_are (self : Compatibility) (e : Entry) :
  run_warnings (process_entry self e)
  = (run_warnings (validate_corrections (prepared self e))
     ++ match run_result (validate_corrections (prepared self e)) with
        | Ok _ => run_warnings (get_corrections_dict self (prepared self e) tt)
        | Raise _ => []
        end)%list
  /\ (clean self = true ->
      run_warnings (process_entry self e)
      = run_warnings (get_corrections_dict self (clean_entry e) tt)).
Proof.
  split; [apply process_entry_warnings|].
  intros Hc. rewrite process_entry_warnings. unfold prepared. rewrite Hc.
  rewrite validate_corrections_warnings, (validate_corrections_I1 _ (clean_entry_I1 e)).
  pose proof (clean_entry_I1 e) as HI. unfold I1 in HI.
  by rewrite <- HI, Z.eqb_refl.
Qed.

Lemma process_entry_warnings_are_witness :
  run_warnings (process_entry (as_Compatibility engine_a_reject_b) entry_O4_stored_b)
  = [NoStructureOrOxideType].
Proof.
  rewrite (proj2 (process_entry_warnings_are
                    (as_Compatibility engine_a_reject_b) entry_O4_stored_b)).
  - vm_compute. reflexivity.
  - reflexivity.
Defined.

(** ** [Correction.correct_entry] *)

Lemma correct_entry_outcome c e :
  outcome (correct_entry c e) =
  match run_result (get_correction c e tt) with
  | Ok val => (set_correction (correction e + val) e,
               Ok (set_correction (correction e + val) e))
  | Raise x => (e, Raise x)
  end.
Proof.
  unfold correct_entry. rewrite outcome_bind.
  change (run_result (reading (get_correction c) e))
    with (run_result (get_correction c e tt)).
  change (run_state (reading (get_correction c) e)) with e.
  destruct (run_result (get_correction c e tt)); reflexivity.
Qed.



(** X12. When the rule raises, [correct_entry] raises the same exception
    and the entry keeps its [correction]. *)
Theorem correct_entry_failure (c : Correction) (e : Entry) (x : exn) :
  run_result (get_correction c e tt) = Raise x ->
  outcome (correct_entry c e) = (e, Raise x).
Proof. intros Hx. by rewrite correct_entry_outcome, Hx. Qed.

Lemma correct_entry_failure_witness :
  outcome (correct_entry (UCorrection_rule u_GGA) entry_Fe2O3_HF)
  = (entry_Fe2O3_HF, Raise CompatibilityError).
Proof.
  apply (correct_entry_failure (UCorrection_rule u_GGA) entry_Fe2O3_HF).
  reflexivity.
Defined.

(** ** PotcarCorrection *)

Lemma comprehension_no_warnings {S A B} (f : A -> M S B) (xs : list A) :
  (forall x s, run_warnings (f x s) = []) ->
  forall s, run_warnings (comprehension xs f s) = [].
Proof.
  intros Hf. induction xs as [|x xs IH]; intros s; [reflexivity|].
  cbn [comprehension]. rewrite run_warnings_bind, Hf.
  destruct (run_result (f x s)); [|reflexivity].
  cbn [app]. rewrite run_warnings_bind, IH.
  destruct (run_result (comprehension xs f _)); reflexivity.
Qed.

Lemma split_1_no_warnings {S} (o : option string) (s : S) :
  run_warnings (split_1 o s) = [].
Proof.
  unfold split_1. destruct o as [str|]; [|reflexivity].
  destruct (py_split str !! 1%nat); reflexivity.
Qed.

Lemma psp_settings_no_warnings self e : run_warnings (psp_settings self e tt) = [].
Proof.
  unfold psp_settings.
  destruct (check_hash self).
  - destruct (list_truthy _); reflexivity.
  - destruct (list_truthy _).
    + rewrite run_warnings_bind, comprehension_no_warnings
        by (intros; apply split_1_no_warnings).
      destruct (run_result _); reflexivity.
    + destruct (potcar_symbols _) as [syms|]; [|reflexivity].
      rewrite run_warnings_bind, comprehension_no_warnings
        by (intros; apply split_1_no_warnings).
      destruct (run_result _); reflexivity.
Qed.

(** X13. [PotcarCorrection.get_correction] is a pure check: it never warns,
    and whenever it returns, it returns zero, so that the rule never puts
    a label into the mapping of a [CorrectionsList]. *)
Theorem PotcarCorrection_only_checks (self : PotcarCorrection) (e : Entry) :
  run_warnings (PotcarCorrection_get_correction self e tt) = []
  /\ (forall v, run_result (PotcarCorrection_get_correction self e tt) = Ok v ->
        v = 0).
Proof.
  unfold PotcarCorrection_get_correction.
  rewrite run_warnings_bind, run_result_bind, psp_settings_no_warnings.
  destruct (run_result (psp_settings self e tt)) as [psp|x].
  - cbv zeta. destruct (bool_decide _); cbn; split; try done.
    by intros v [= <-].
  - split; [reflexivity | discriminate].
Qed.

Lemma PotcarCorrection_only_checks_witness :
  exists v,
    run_result (PotcarCorrection_get_correction potcar_symbol entry_Fe2O3_potcars tt)
    = Ok v /\ v = 0.
Proof.
  exists 0. split; [vm_compute; reflexivity|].
  apply (proj2 (PotcarCorrection_only_checks potcar_symbol entry_Fe2O3_potcars) 0).
  vm_compute. reflexivity.
Defined.

(** X14. An entry without POTCAR metadata is not rejected as incompatible:
    with no (or an empty) [potcar_spec], a rule that checks hashes raises
    ValueError, and a rule that compares symbols raises KeyError when
    [potcar_symbols] is missing too. *)
Theorem PotcarCorrection_missing_metadata (self : PotcarCorrection) (e : Entry) :
  list_truthy (potcar_spec (parameters e)) = false ->
  (check_hash self = true ->
   run_result (PotcarCorrection_get_correction self e tt) = Raise ValueError)
  /\ (check_hash self = false -> potcar_symbols (parameters e) = None ->
      run_result (PotcarCorrection_get_correction self e tt) = Raise KeyError).
Proof.
  intros Hspec. unfold PotcarCorrection_get_correction.
  rewrite run_result_bind. unfold psp_settings. rewrite Hspec.
  split.
  - by intros ->.
  - by intros -> ->.
Qed.

Lemma PotcarCorrection_missing_metadata_witness :
  run_result (PotcarCorrection_get_correction potcar_hash entry_O4 tt)
    = Raise ValueError
  /\ run_result (PotcarCorrection_get_correction potcar_symbol entry_O4 tt)
     = Raise KeyError.
Proof.
  split.
  - apply (PotcarCorrection_missing_metadata potcar_hash entry_O4); reflexivity.
  - apply (PotcarCorrection_missing_metadata potcar_symbol entry_O4); reflexivity.
Defined.

Lemma comprehension_values {A B} (f : A -> Reader B) (xs : list A) (ys : list B) :
  Forall2 (fun x y => run_result (f x tt) = Ok y) xs ys ->
  run_result (comprehension xs f tt) = Ok ys.
Proof.
  induction 1 as [|x y xs ys Hxy _ IH]; [reflexivity|].
  cbn [comprehension]. rewrite run_result_bind, Hxy, reader_state.
  rewrite run_result_bind, IH. reflexivity.
Qed.

(** X15. A rule that compares symbols, on an entry that has no
    [potcar_spec] but lists its POTCAR symbols, takes the second word of
    every nonempty symbol and compares the SET of these words with the
    set of the symbols expected for the elements of the composition: it
    returns 0 when the sets are equal and raises CompatibilityError
    otherwise.  Order and repetition do not matter. *)
Theorem PotcarCorrection_compares_symbol_sets
    (self : PotcarCorrection) (e : Entry) (syms ws : list string) :
  check_hash self = false ->
  list_truthy (potcar_spec (parameters e)) = false ->
  potcar_symbols (parameters e) = Some syms ->
  Forall2 (fun sym w => py_split sym !! 1%nat = Some w)
          (filter (fun sym => sym <> "") syms) ws ->
  run_result (PotcarCorrection_get_correction self e tt)
  = if decide (expected_potcars self e = list_to_set (Some <$> ws))
    then Ok 0 else Raise CompatibilityError.
Proof.
  intros Hc Hspec Hsyms Hws. unfold PotcarCorrection_get_correction.
  rewrite run_result_bind. unfold psp_settings. rewrite Hc, Hspec, Hsyms.
  rewrite run_result_bind.
  rewrite (comprehension_values _ _ ws).
  2:{ eapply Forall2_impl; [exact Hws|]. intros sym w H. cbn.
      unfold split_1. by rewrite H. }
  cbn [ret run_result run_state]. fold (expected_potcars self e).
  destruct (decide (expected_potcars self e = list_to_set (Some <$> ws)))
    as [Heq|Hne].
  - rewrite bool_decide_eq_false_2; [reflexivity|]. by intros H.
  - by rewrite bool_decide_eq_true_2.
Qed.

Lemma PotcarCorrection_compares_symbol_sets_witness :
  run_result (PotcarCorrection_get_correction potcar_symbol entry_Fe2O3_potcars tt)
  = Ok 0.
Proof.
  rewrite (PotcarCorrection_compares_symbol_sets potcar_symbol
             entry_Fe2O3_potcars
             ["PAW_PBE O 08Apr2002"; "PAW_PBE Fe_pv 06Sep2000"; ""]
             ["O"; "Fe_pv"]).
  - vm_compute. reflexivity.
  - reflexivity.
  - reflexivity.
  - reflexivity.
  - rewrite filter_cons_True by discriminate.
    rewrite filter_cons_True by discriminate.
    rewrite filter_cons_False by (intros H; by apply H).
    repeat constructor.
Defined.

Lemma dict_comprehension_getitem key (items : list (string * gmap string string)) :
  forall acc,
  NoDup items.*1 ->
  Forall (fun kd => is_Some (kd.2 !! key)) items ->
  exists m,
    run_result (dict_comprehension items
                  (fun d : gmap string string => getitem d key) acc tt) = Ok m
    /\ (forall k d, (k, d) ∈ items -> m !! k = d !! key)
    /\ (forall k, k ∉ items.*1 -> m !! k = acc !! k).
Proof.
  induction items as [|[k0 d0] items IH]; intros acc Hnd Hall.
  - exists acc. split; [reflexivity|]. split; [|done].
    intros k d H. by apply elem_of_nil in H.
  - cbn [fmap list_fmap fst] in Hnd. apply NoDup_cons in Hnd as [Hk0 Hnd].
    apply Forall_cons in Hall as [[v0 Hv0] Hall]. cbn [snd] in Hv0.
    destruct (IH (<[k0 := v0]> acc) Hnd Hall) as (m & Hr & Hin & Hout).
    exists m. cbn [dict_comprehension]. rewrite run_result_bind, reader_state.
    unfold getitem at 1. rewrite Hv0. cbn [ret run_result].
    split; [exact Hr|]. split.
    + intros k d Hkd. apply elem_of_cons in Hkd as [Heq|Hkd]; [|by apply Hin].
      injection Heq as -> ->. by rewrite Hout, lookup_insert_eq.
    + intros k Hk. cbn [fmap list_fmap fst] in Hk.
      apply not_elem_of_cons in Hk as [Hne Hk].
      by rewrite Hout, lookup_insert_ne.
Qed.

Lemma dict_comprehension_missing key (items : list (string * gmap string string)) :
  forall acc,
  Exists (fun kd => kd.2 !! key = None) items ->
  run_result (dict_comprehension items
                (fun d : gmap string string => getitem d key) acc tt)
  = Raise KeyError.
Proof.
  induction items as [|[k0 d0] items IH]; intros acc Hex.
  - by apply Exists_nil in Hex.
  - cbn [dict_comprehension]. rewrite run_result_bind, reader_state.
    unfold getitem at 1.
    destruct (d0 !! key) as [v0|] eqn:Hv0; [|reflexivity].
    cbn [ret run_result]. apply IH.
    apply Exists_cons in Hex as [Hex|Hex]; [|done].
    cbn [snd] in Hex. congruence.
Qed.

(** X16. Built from a configuration that gives every element a dict with
    the wanted key ("hash" when hashes are checked, "symbol" otherwise), a
    [PotcarCorrection] expects for each element of the configuration the
    value under that key, and nothing for any other element. *)
Theorem PotcarCorrection_init_detailed
    (name : string) (items : list (string * gmap string string)) (hash : bool) :
  items <> [] ->
  NoDup items.*1 ->
  Forall (fun kd => is_Some (kd.2 !! (if hash then "hash" else "symbol"))) items ->
  exists self,
    run_result (PotcarCorrection_init name (DetailedConfig items) hash tt) = Ok self
    /\ check_hash self = hash
    /\ input_set_name self = name
    /\ (forall k d, (k, d) ∈ items ->
          valid_potcars self !! k = d !! (if hash then "hash" else "symbol"))
    /\ (forall k, k ∉ items.*1 -> valid_potcars self !! k = None).
Proof.
  intros Hne Hnd Hall.
  destruct (dict_comprehension_getitem _ items ∅ Hnd Hall) as (m & Hr & Hin & Hout).
  exists (mkPotcarCorrection m hash name).
  destruct items as [|item items]; [done|].
  unfold PotcarCorrection_init. rewrite run_result_bind, Hr.
  cbn [ret run_result run_state check_hash input_set_name valid_potcars].
  repeat split; [exact Hin|]. intros k Hk. by rewrite Hout.
Qed.

Lemma PotcarCorrection_init_detailed_witness :
  exists self,
    run_result (PotcarCorrection_init "MPRelaxSet" potcar_config_detailed true tt)
      = Ok self
    /\ valid_potcars self !! "Fe" = Some "hash-Fe_pv"
    /\ valid_potcars self !! "Li" = None.
Proof.
  destruct (PotcarCorrection_init_detailed "MPRelaxSet"
              [("Fe", {["hash" := "hash-Fe_pv"; "symbol" := "Fe_pv"]});
               ("O", {["hash" := "hash-O"; "symbol" := "O"]})] true)
    as (self & Hr & _ & _ & Hin & Hout).
  - discriminate.
  - apply NoDup_ListNoDup. repeat constructor; cbn; intuition discriminate.
  - repeat constructor; eexists; reflexivity.
  - exists self. split; [exact Hr|]. split.
    + rewrite (Hin "Fe" {["hash" := "hash-Fe_pv"; "symbol" := "Fe_pv"]});
        [reflexivity | by left].
    + apply Hout. intros H.
      apply elem_of_cons in H as [H|H]; [discriminate|].
      apply elem_of_cons in H as [H|H]; [discriminate|].
      by apply elem_of_nil in H.
Defined.

(** X17. [PotcarCorrection.__init__] fails with ValueError when hashes are
    to be checked and the configuration gives plain symbols, and with
    KeyError when the configuration gives dicts of which one lacks the
    wanted key. *)
Theorem PotcarCorrection_init_failures (name : string) (hash : bool) :
  (forall items, items <> [] ->
     run_result (PotcarCorrection_init name (SymbolConfig items) true tt)
     = Raise ValueError)
  /\ (forall items,
        Exists (fun kd : string * gmap string string =>
                  kd.2 !! (if hash then "hash" else "symbol") = None) items ->
        run_result (PotcarCorrection_init name (DetailedConfig items) hash tt)
        = Raise KeyError).
Proof.
  split.
  - intros [|item items] Hne; [done | reflexivity].
  - intros items Hex. destruct items as [|item items];
      [by apply Exists_nil in Hex|].
    unfold PotcarCorrection_init. rewrite run_result_bind.
    by rewrite (dict_comprehension_missing _ (item :: items) ∅ Hex).
Qed.

Lemma PotcarCorrection_init_failures_witness :
  run_result (PotcarCorrection_init "MPRelaxSet"
                (SymbolConfig [("Fe", "Fe_pv"); ("O", "O")]) true tt)
  = Raise ValueError
  /\ run_result (PotcarCorrection_init "MPRelaxSet"
                   (DetailedConfig [("Fe", {["hash" := "hash-Fe_pv"]});
                                    ("O", {["symbol" := "O"]})]) true tt)
     = Raise KeyError.
Proof.
  destruct (PotcarCorrection_init_failures "MPRelaxSet" true) as [H1 H2].
  split.
  - apply H1. discriminate.
  - apply H2. right. left. reflexivity.
Defined.

(** ** AnionCorrection *)

Lemma comp_contains_length comp sym :
  comp_contains comp sym = true -> comp_len comp <> 1%nat ->
  Nat.ltb 1 (length (elements comp)) = true.
Proof.
  unfold comp_contains, comp_len, elements. intros Hc Hlen.
  rewrite length_fmap. apply Nat.ltb_lt.
  destruct (el_amt comp) as [|p [|q l]]; cbn in *; [discriminate | done | lia].
Qed.

(** X18. The anion rule returns zero, without warning, for an entry of a
    single element and for an entry that holds neither sulfur nor oxygen. *)
Theorem AnionCorrection_inert (self : AnionCorrection) (e : Entry) :
  comp_len (composition e) = 1%nat
  \/ (comp_contains (composition e) "S" = false
      /\ comp_contains (composition e) "O" = false) ->
  AnionCorrection_get_correction self e tt = mkRun tt [] (Ok 0).
Proof.
  unfold AnionCorrection_get_correction. intros [Hlen|[HS HO]].
  - by rewrite Hlen.
  - destruct (Nat.eqb _ 1); [reflexivity|].
    unfold sulfur_part, oxygen_part. by rewrite HS, HO.
Qed.

Lemma AnionCorrection_inert_witness :
  AnionCorrection_get_correction anion_MP entry_O4 tt = mkRun tt [] (Ok 0).
Proof. apply (AnionCorrection_inert anion_MP entry_O4). by left. Defined.

(** X19. With peroxide corrections disabled, every oxygen-bearing entry of
    more than one element gets the "oxide" value of the table for each
    oxygen atom, added to the sulfur part, whatever its [oxide_type]
    datum, structure or formula; there is no warning.  A table without
    "oxide" makes the rule raise KeyError. *)
Theorem AnionCorrection_peroxide_disabled (self : AnionCorrection) (e : Entry) :
  correct_peroxide self = false ->
  comp_len (composition e) <> 1%nat ->
  comp_contains (composition e) "O" = true ->
  AnionCorrection_get_correction self e tt =
  mkRun tt []
    match oxide_correction self !! "oxide" with
    | Some ox => Ok (sulfur_part self e + ox * comp_getitem (composition e) "O")
    | None => Raise KeyError
    end.
Proof.
  intros Hcp Hlen HO. unfold AnionCorrection_get_correction.
  apply Nat.eqb_neq in Hlen. rewrite Hlen.
  unfold oxygen_part. rewrite HO, Hcp. unfold getitem.
  destruct (oxide_correction self !! "oxide"); reflexivity.
Qed.

Lemma AnionCorrection_peroxide_disabled_witness :
  AnionCorrection_get_correction anion_no_peroxide entry_Li2O2 tt
  = mkRun tt [] (Ok (-140)).
Proof.
  rewrite (AnionCorrection_peroxide_disabled anion_no_peroxide entry_Li2O2).
  - reflexivity.
  - reflexivity.
  - vm_compute. discriminate.
  - reflexivity.
Defined.

(** X20. The warning about the missing structure is given exactly when the
    formula matching is used: the entry has more than one element and
    oxygen, peroxide corrections are enabled, and the entry has neither a
    (nonempty) [oxide_type] datum nor a structure.  It is then the only
    warning. *)
Theorem AnionCorrection_warning (self : AnionCorrection) (e : Entry) :
  run_warnings (AnionCorrection_get_correction self e tt)
  = if formula_matching self e then [NoStructureOrOxideType] else [].
Proof.
  unfold AnionCorrection_get_correction, formula_matching.
  destruct (Nat.eqb (comp_len (composition e)) 1); [reflexivity|].
  cbn [negb andb]. rewrite run_warnings_bind. unfold oxygen_part.
  destruct (comp_contains (composition e) "O"); [|reflexivity].
  destruct (correct_peroxide self); cbn [andb].
  2:{ unfold getitem. destruct (_ !! "oxide"); reflexivity. }
  destruct (str_truthy (oxide_type (data e))); cbn [negb andb].
  { destruct (String.eqb _ "hydroxide"); [|reflexivity].
    unfold getitem. destruct (_ !! "oxide"); reflexivity. }
  destruct (structure e) as [st|].
  { destruct (_ !! oxide_type_of st); [reflexivity|].
    destruct (String.eqb _ "hydroxide"); [|reflexivity].
    unfold getitem. destruct (_ !! "oxide"); reflexivity. }
  unfold getitem.
  destruct (str_in _ common_peroxides);
    [destruct (_ !! "peroxide"); reflexivity|].
  destruct (str_in _ common_superoxides);
    [destruct (_ !! "superoxide"); reflexivity|].
  destruct (str_in _ ozonides); [destruct (_ !! "ozonide"); reflexivity|].
  cbn [andb]. destruct (Nat.ltb _ _); [|reflexivity].
  destruct (_ !! "oxide"); reflexivity.
Qed.

(** X21. Formula matching: for an oxygen-bearing entry of more than one
    element without [oxide_type] datum and without structure, with
    peroxide corrections enabled, the rule warns and adds to the sulfur
    part the table value for "peroxide", "superoxide" or "ozonide" when
    the reduced formula is in the list of that name, and the "oxide" value
    for every other formula, each times the number of oxygen atoms. *)
Theorem AnionCorrection_formula_matching
    (self : AnionCorrection) (e : Entry) (c : Z) :
  correct_peroxide self = true ->
  comp_len (composition e) <> 1%nat ->
  comp_contains (composition e) "O" = true ->
  oxide_type (data e) = None ->
  structure e = None ->
  oxide_correction self
    !! fallback_oxide_key (reduced_formula (composition e)) = Some c ->
  AnionCorrection_get_correction self e tt =
  mkRun tt [NoStructureOrOxideType]
        (Ok (sulfur_part self e + c * comp_getitem (composition e) "O")).
Proof.
  intros Hcp Hlen HO Hot Hst Hc.
  pose proof (comp_contains_length _ _ HO Hlen) as Hlt.
  unfold AnionCorrection_get_correction.
  apply Nat.eqb_neq in Hlen. rewrite Hlen.
  unfold oxygen_part. rewrite HO, Hcp, Hot, Hst, Hlt. cbn [str_truthy andb].
  unfold fallback_oxide_key in Hc. unfold getitem, bind, warn.
  cbn [run_result run_state run_warnings].
  destruct (str_in _ common_peroxides); [by rewrite Hc|].
  destruct (str_in _ common_superoxides); [by rewrite Hc|].
  destruct (str_in _ ozonides); by rewrite Hc.
Qed.

Lemma AnionCorrection_formula_matching_witness :
  AnionCorrection_get_correction anion_MP entry_KO2 tt
    = mkRun tt [NoStructureOrOxideType] (Ok (-32))
  /\ AnionCorrection_get_correction anion_MP entry_Fe2O3 tt
     = mkRun tt [NoStructureOrOxideType] (Ok (-210)).
Proof.
  split.
  - apply (AnionCorrection_formula_matching anion_MP entry_KO2 (-16));
      vm_compute; congruence.
  - apply (AnionCorrection_formula_matching anion_MP entry_Fe2O3 (-70));
      vm_compute; congruence.
Defined.

(** X22. An [oxide_type] datum decides alone: with peroxide corrections
    enabled, an oxygen-bearing entry of more than one element that
    carries a nonempty [oxide_type] gets, per oxygen atom, the table value
    of that type (nothing, and no error, for a type the table does not
    know), whatever its structure says and without warning; for
    "hydroxide" the "oxide" value is added on top of it. *)
Theorem AnionCorrection_oxide_type_datum
    (self : AnionCorrection) (e : Entry) (ot : string) :
  correct_peroxide self = true ->
  comp_len (composition e) <> 1%nat ->
  comp_contains (composition e) "O" = true ->
  oxide_type (data e) = Some ot ->
  ot <> "" ->
  AnionCorrection_get_correction self e tt =
  mkRun tt []
    (if String.eqb ot "hydroxide" then
       match oxide_correction self !! "oxide" with
       | Some ox =>
           Ok (sulfur_part self e
               + (default 0 (oxide_correction self !! ot) + ox)
                 * comp_getitem (composition e) "O")
       | None => Raise KeyError
       end
     else
       Ok (sulfur_part self e
           + default 0 (oxide_correction self !! ot)
             * comp_getitem (composition e) "O")).
Proof.
  intros Hcp Hlen HO Hot Hne.
  unfold AnionCorrection_get_correction.
  apply Nat.eqb_neq in Hlen. rewrite Hlen.
  unfold oxygen_part. rewrite HO, Hcp, Hot.
  assert (Ht : str_truthy (Some ot) = true).
  { cbn. by apply negb_true_iff, String.eqb_neq. }
  rewrite Ht. cbn [default from_option id].
  destruct (String.eqb ot "hydroxide").
  - unfold getitem, bind. destruct (oxide_correction self !! "oxide") as [ox|];
      [|reflexivity].
    cbn [ret run_result run_state run_warnings app]. do 2 f_equal.
    destruct (oxide_correction self !! ot); cbn; lia.
  - unfold bind. cbn [ret run_result run_state run_warnings app]. do 2 f_equal.
    destruct (oxide_correction self !! ot); cbn; lia.
Qed.

Lemma AnionCorrection_oxide_type_datum_witness :
  AnionCorrection_get_correction anion_MP entry_FeOOH tt
  = mkRun tt [] (Ok (-140)).
Proof.
  rewrite (AnionCorrection_oxide_type_datum anion_MP entry_FeOOH "hydroxide").
  - reflexivity.
  - reflexivity.
  - vm_compute. discriminate.
  - reflexivity.
  - reflexivity.
  - discriminate.
Defined.

(** ** UCorrection *)

Lemma UCorrection_get_correction_eq self e :
  String.eqb (default "GGA" (run_type (parameters e))) "HF" = false ->
  UCorrection_get_correction self e tt =
  match most_electronegative (composition e) with
  | None => mkRun tt [] (Raise IndexError)
  | Some anion =>
      u_loop (default ∅ (hubbards (parameters e)))
             (default ∅ (u_settings self !! symbol anion))
             (default ∅ (u_corrections self !! symbol anion))
             (composition e) (elements (composition e)) 0 tt
  end.
Proof.
  intros Hrt. unfold UCorrection_get_correction, most_electronegative.
  rewrite Hrt. by destruct (last _).
Qed.

Lemma u_loop_mismatch calc_u usettings ucorr comp els : forall acc,
  Exists (fun el => default 0 (calc_u !! symbol el)
                    <> default 0 (usettings !! symbol el)) els ->
  u_loop calc_u usettings ucorr comp els acc tt
  = mkRun tt [] (Raise CompatibilityError).
Proof.
  induction els as [|el els IH]; intros acc Hex; [by apply Exists_nil in Hex|].
  cbn [u_loop].
  destruct (Z.eqb_spec (default 0 (calc_u !! symbol el))
                       (default 0 (usettings !! symbol el))) as [Heq|Hne];
    cbn [negb]; [|reflexivity].
  apply IH. apply Exists_cons in Hex as [Hex|Hex]; done.
Qed.

Lemma u_loop_match calc_u usettings ucorr comp els : forall acc,
  Forall (fun el => default 0 (calc_u !! symbol el)
                    = default 0 (usettings !! symbol el)) els ->
  u_loop calc_u usettings ucorr comp els acc tt
  = mkRun tt []
      (Ok (acc + foldr (fun el a =>
                          default 0 (ucorr !! symbol el)
                          * comp_getitem comp (symbol el) + a) 0 els)).
Proof.
  induction els as [|el els IH]; intros acc Hall.
  - cbn [u_loop foldr]. unfold ret. by rewrite Z.add_0_r.
  - apply Forall_cons in Hall as [Heq Hall]. cbn [u_loop foldr].
    apply Z.eqb_eq in Heq. rewrite Heq. cbn [negb]. rewrite IH by done.
    f_equal. f_equal. destruct (ucorr !! symbol el); cbn [default from_option id]; lia.
Qed.

(** X23. Hubbard mismatch: for an entry whose run type is not "HF" and
    whose most electronegative element is [anion], as soon as one element
    of the composition was calculated with a U value that differs from
    the one the rule expects for it under [anion] (an absent value
    counting as 0), the rule raises CompatibilityError. *)
Theorem UCorrection_mismatch_rejected
    (self : UCorrection) (e : Entry) (anion : Element) :
  String.eqb (default "GGA" (run_type (parameters e))) "HF" = false ->
  most_electronegative (composition e) = Some anion ->
  Exists (fun el => calculated_U e (symbol el)
                    <> expected_U self (symbol anion) (symbol el))
         (elements (composition e)) ->
  UCorrection_get_correction self e tt = mkRun tt [] (Raise CompatibilityError).
Proof.
  intros Hrt Han Hex. rewrite UCorrection_get_correction_eq, Han by done.
  by apply u_loop_mismatch.
Qed.

Lemma UCorrection_mismatch_rejected_witness :
  UCorrection_get_correction u_Advanced entry_Fe2O3 tt
  = mkRun tt [] (Raise CompatibilityError).
Proof.
  apply (UCorrection_mismatch_rejected u_Advanced entry_Fe2O3 el_O).
  - reflexivity.
  - reflexivity.
  - left. vm_compute. discriminate.
Defined.

(** X24. When the run type is not "HF" and every element of the
    composition was calculated with the U value the rule expects under
    the most electronegative element, the rule returns the sum over the
    elements of the correction per atom listed under that element times
    the amount of the element; it never warns. *)
Theorem UCorrection_value
    (self : UCorrection) (e : Entry) (anion : Element) :
  String.eqb (default "GGA" (run_type (parameters e))) "HF" = false ->
  most_electronegative (composition e) = Some anion ->
  Forall (fun el => calculated_U e (symbol el)
                    = expected_U self (symbol anion) (symbol el))
         (elements (composition e)) ->
  UCorrection_get_correction self e tt
  = mkRun tt [] (Ok (U_total self (symbol anion) (composition e))).
Proof.
  intros Hrt Han Hall. rewrite UCorrection_get_correction_eq, Han by done.
  by rewrite u_loop_match.
Qed.

Lemma UCorrection_value_witness :
  UCorrection_get_correction u_Advanced entry_Fe2O3_U tt
  = mkRun tt [] (Ok (-54)).
Proof.
  rewrite (UCorrection_value u_Advanced entry_Fe2O3_U el_O).
  - reflexivity.
  - reflexivity.
  - reflexivity.
  - repeat constructor.
Defined.

Lemma insert_by_X_perm el l : insert_by_X el l ≡ₚ el :: l.
Proof.
  induction l as [|y l IH]; [reflexivity|]. cbn [insert_by_X].
  destruct (Z.ltb (X el) (X y)); [reflexivity|].
  rewrite IH. apply Permutation_swap.
Qed.

Lemma insert_by_X_sorted el l :
  StronglySorted (fun a b => X a <= X b) l ->
  StronglySorted (fun a b => X a <= X b) (insert_by_X el l).
Proof.
  induction 1 as [|y l Hs IH Hy]; cbn [insert_by_X].
  - repeat constructor.
  - destruct (Z.ltb_spec (X el) (X y)) as [Hlt|Hge].
    + apply SSorted_cons; [by apply SSorted_cons|].
      constructor; [lia|].
      eapply Forall_impl; [exact Hy|]. intros z Hz. cbn in Hz. lia.
    + apply SSorted_cons; [exact IH|].
      rewrite insert_by_X_perm. by constructor.
Qed.

Lemma sorted_by_X_foldl l : forall acc,
  StronglySorted (fun a b => X a <= X b) acc ->
  StronglySorted (fun a b => X a <= X b)
    (foldl (fun acc el => insert_by_X el acc) acc l)
  /\ foldl (fun acc el => insert_by_X el acc) acc l ≡ₚ (acc ++ l)%list.
Proof.
  induction l as [|el l IH]; intros acc Hacc.
  - cbn. by rewrite app_nil_r.
  - cbn [foldl].
    destruct (IH (insert_by_X el acc) (insert_by_X_sorted el acc Hacc))
      as [Hs Hp].
    split; [exact Hs|]. rewrite Hp, insert_by_X_perm.
    cbn [app]. apply Permutation_middle.
Qed.

Lemma last_sorted_max (l : list Element) m :
  StronglySorted (fun a b => X a <= X b) l ->
  last l = Some m -> Forall (fun x => X x <= X m) l.
Proof.
  induction 1 as [|a l Hs IH Ha]; intros Hl; [discriminate|].
  destruct l as [|b l].
  - injection Hl as <-. repeat constructor. lia.
  - rewrite last_cons_cons in Hl. constructor; [|by apply IH].
    apply last_Some_elem_of in Hl.
    by apply (proj1 (Forall_forall _ _) Ha).
Qed.

(** X25. The element under which the rule looks up the expected U values
    and the corrections is an element of the composition with a positive
    amount, and no element present with a positive amount is more
    electronegative. *)
Theorem most_electronegative_is_max (comp : Composition) (anion : Element) :
  most_electronegative comp = Some anion ->
  anion ∈ elements comp
  /\ 0 < comp_getitem comp (symbol anion)
  /\ (forall el, el ∈ elements comp -> 0 < comp_getitem comp (symbol el) ->
        X el <= X anion).
Proof.
  unfold most_electronegative, sorted_by_X. intros Hl.
  set (present := filter (fun el => 0 < comp_getitem comp (symbol el))
                         (elements comp)) in *.
  destruct (sorted_by_X_foldl present []) as [Hs Hp]; [constructor|].
  cbn [app] in Hp.
  pose proof (last_sorted_max _ _ Hs Hl) as Hmax.
  apply last_Some_elem_of in Hl. rewrite Hp in Hl, Hmax.
  apply list_elem_of_filter in Hl as [Hpos Hin].
  repeat split; [done..|].
  intros el Hel Hpos'.
  apply (proj1 (Forall_forall _ _) Hmax).
  apply list_elem_of_filter. by split.
Qed.

Lemma most_electronegative_is_max_witness :
  el_O ∈ elements (composition entry_Fe2O3)
  /\ 0 < comp_getitem (composition entry_Fe2O3) (symbol el_O)
  /\ (forall el, el ∈ elements (composition entry_Fe2O3) ->
        0 < comp_getitem (composition entry_Fe2O3) (symbol el) ->
        X el <= X el_O).
Proof.
  apply (most_electronegative_is_max (composition entry_Fe2O3) el_O).
  reflexivity.
Defined.

(** X26. For an entry whose run type is not "HF" and whose composition
    has no element with a positive amount (an empty composition, for
    one), the rule raises IndexError. *)
Theorem UCorrection_nothing_present (self : UCorrection) (e : Entry) :
  String.eqb (default "GGA" (run_type (parameters e))) "HF" = false ->
  Forall (fun el => ~ 0 < comp_getitem (composition e) (symbol el))
         (elements (composition e)) ->
  UCorrection_get_correction self e tt = mkRun tt [] (Raise IndexError).
Proof.
  intros Hrt Hall. rewrite UCorrection_get_correction_eq by done.
  unfold most_electronegative.
  replace (filter _ (elements (composition e))) with (@nil Element);
    [reflexivity|].
  symmetry. induction Hall as [|el els Hel _ IH]; [reflexivity|].
  by rewrite filter_cons_False.
Qed.

Lemma UCorrection_nothing_present_witness :
  UCorrection_get_correction u_Advanced entry_no_atoms tt
  = mkRun tt [] (Raise IndexError).
Proof.
  apply (UCorrection_nothing_present u_Advanced entry_no_atoms).
  - reflexivity.
  - constructor.
Defined.

(** X27. Built by [UCorrection.__init__] for the "GGA" scheme, whatever
    the configuration holds, the rule corrects nothing and excludes every
    GGA+U entry: for an entry whose run type
    is not "HF" and that has an element present, it returns 0 when no
    element of the composition was calculated with a nonzero U, and
    raises CompatibilityError otherwise. *)
Theorem UCorrection_GGA_scheme
    (name : string) (ldauu ucorrections : gmap string (gmap string Z))
    (e : Entry) (anion : Element) :
  String.eqb (default "GGA" (run_type (parameters e))) "HF" = false ->
  most_electronegative (composition e) = Some anion ->
  exists self,
    UCorrection_init name ldauu ucorrections "GGA" = Ok self
    /\ (Forall (fun el => calculated_U e (symbol el) = 0)
               (elements (composition e)) ->
        UCorrection_get_correction self e tt = mkRun tt [] (Ok 0))
    /\ (Exists (fun el => calculated_U e (symbol el) <> 0)
               (elements (composition e)) ->
        UCorrection_get_correction self e tt
        = mkRun tt [] (Raise CompatibilityError)).
Proof.
  intros Hrt Han. exists (mkUCorrection ∅ ∅ name "GGA").
  split; [reflexivity|].
  rewrite UCorrection_get_correction_eq, Han by done.
  cbn [u_settings u_corrections]. rewrite lookup_empty. cbn [default from_option id].
  split.
  - intros Hall. rewrite u_loop_match.
    + f_equal. f_equal. clear Hall Han.
      induction (elements (composition e)) as [|el els IH]; [reflexivity|].
      cbn [foldr]. rewrite lookup_empty. cbn [default from_option id].
      lia.
    + eapply Forall_impl; [exact Hall|]. intros el H. cbn in H.
      unfold calculated_U in H. by rewrite H, lookup_empty.
  - intros Hex. apply u_loop_mismatch.
    eapply Exists_impl; [exact Hex|]. intros el H. cbn in H.
    unfold calculated_U in H. by rewrite lookup_empty.
Qed.

Lemma UCorrection_GGA_scheme_witness :
  exists self,
    UCorrection_init "MP" {["O" := {["Fe" := 53]}]} {["O" := {["Fe" := -27]}]} "GGA"
      = Ok self
    /\ UCorrection_get_correction self entry_Fe2O3_U tt
       = mkRun tt [] (Raise CompatibilityError).
Proof.
  destruct (UCorrection_GGA_scheme "MP" {["O" := {["Fe" := 53]}]}
              {["O" := {["Fe" := -27]}]} entry_Fe2O3_U el_O)
    as (self & Hinit & _ & Hrej).
  - reflexivity.
  - reflexivity.
  - exists self. split; [exact Hinit|]. apply Hrej.
    left. vm_compute. discriminate.
Defined.

(** ** The explanation *)

(** [process_entry] returns [None] only for a rejection by the rule set,
    and then leaves the entry as the rules saw it. *)
Lemma process_entry_None self e :
  run_result (process_entry self e) = Ok None ->
  run_state (process_entry self e) = prepared self e
  /\ run_result (get_corrections_dict self (prepared self e) tt)
     = Raise CompatibilityError.
Proof.
  rewrite process_entry_result, process_entry_state, process_entry_outcome.
  cbv zeta.
  destruct (run_result (validate_corrections _)) as [[]|x]; [|discriminate].
  destruct (run_result (get_corrections_dict self (prepared self e) tt))
    as [corr|x].
  - destruct (merge_all_result (class_name self) corr (prepared self e))
      as [[Hr|Hr] _]; rewrite Hr; cbn [fst snd]; discriminate.
  - destruct x; cbn [fst snd]; try discriminate. by split.
Qed.

Lemma get_explanation_dict_result self e :
  run_result (get_explanation_dict self e) =
  match run_result (process_entry (as_Compatibility self) e) with
  | Raise x => Raise x
  | Ok centry =>
      let entry := run_state (process_entry (as_Compatibility self) e) in
      match run_result (CorrectionsList_get_corrections_dict self entry tt) with
      | Raise x => Raise x
      | Ok corr_dict =>
          Ok (mkExplanation (cl_class_name self)
                match centry with
                | None => uncorrected_energy entry
                | Some c => uncorrected_energy c
                end
                match centry with
                | None => None
                | Some c => Some (energy c)
                end
                ((fun c => mkCorrectionExplanation (str c) (description c)
                             (default 0 (dict_get (str c) corr_dict)))
                   <$> corrections self))
      end
  end.
Proof.
  unfold get_explanation_dict. rewrite run_result_bind.
  destruct (run_result (process_entry (as_Compatibility self) e)) as [centry|x];
    [|reflexivity].
  rewrite run_result_bind. cbn [get run_result run_state].
  rewrite run_result_bind. cbn [reading run_result run_state]. cbv zeta.
  destruct (run_result (CorrectionsList_get_corrections_dict self _ tt));
    reflexivity.
Qed.

(** X28. [get_explanation_dict] never returns an explanation without a
    corrected energy.  Whenever it returns, [process_entry] has returned
    the entry, and the explanation carries the class name of the engine,
    the uncorrected energy of the entry, the energy of the entry as
    [process_entry] left it, and one record per rule, in the order of the
    list and under the name of the rule; [explain] then succeeds too. *)
Theorem get_explanation_dict_returns
    (self : CorrectionsList) (e : Entry) (d : Explanation) :
  run_result (get_explanation_dict self e) = Ok d ->
  let e' := run_state (process_entry (as_Compatibility self) e) in
  run_result (process_entry (as_Compatibility self) e) = Ok (Some e')
  /\ exp_compatibility d = cl_class_name self
  /\ exp_uncorrected_energy d = uncorrected_energy e
  /\ exp_corrected_energy d = Some (energy e')
  /\ exp_name <$> exp_corrections d = str <$> corrections self
  /\ run_result (explain self e) = Ok tt.
Proof.
  intros Hd e'.
  assert (Hex : run_result (explain self e)
                = match exp_corrected_energy d with
                  | Some _ => Ok tt
                  | None => Raise TypeError
                  end).
  { unfold explain. rewrite run_result_bind, Hd.
    by destruct (exp_corrected_energy d). }
  rewrite Hex. clear Hex. revert Hd.
  rewrite get_explanation_dict_result. cbv zeta. fold e'.
  destruct (run_result (process_entry (as_Compatibility self) e))
    as [[c|]|x] eqn:Hp; [| |discriminate].
  - apply process_entry_returns_state in Hp. fold e' in Hp. subst c.
    destruct (run_result (CorrectionsList_get_corrections_dict self e' tt))
      as [corr|x]; [|discriminate].
    intros [= <-]. cbn.
    repeat split.
    + pose proof (process_entry_frame (as_Compatibility self) e) as Hfr.
      fold e' in Hfr. apply (f_equal uncorrected_energy) in Hfr.
      exact Hfr.
    + rewrite <- list_fmap_compose. reflexivity.
  - apply process_entry_None in Hp as [Hs Hg]. fold e' in Hs.
    cbn [get_corrections_dict as_Compatibility] in Hg.
    rewrite Hs, Hg. discriminate.
Qed.

Lemma get_explanation_dict_returns_witness :
  let e' := run_state (process_entry (as_Compatibility gas_engine) entry_O4) in
  run_result (process_entry (as_Compatibility gas_engine) entry_O4) = Ok (Some e')
  /\ exp_corrected_energy
       (mkExplanation "CorrectionsList" (-9) (Some (-16))
          [mkCorrectionExplanation (str (GasCorrection_rule gas_O2))
             (description (GasCorrection_rule gas_O2)) (-7)])
     = Some (energy e')
  /\ run_result (explain gas_engine entry_O4) = Ok tt.
Proof.
  destruct (get_explanation_dict_returns gas_engine entry_O4
              (mkExplanation "CorrectionsList" (-9) (Some (-16))
                 [mkCorrectionExplanation (str (GasCorrection_rule gas_O2))
                    (description (GasCorrection_rule gas_O2)) (-7)]))
    as (H1 & _ & _ & H4 & _ & H6).
  - vm_compute. reflexivity.
  - cbv zeta. split; [exact H1|]. split; [exact H4 | exact H6].
Defined.

(** ** What the rules read *)

Ltac blind_rule e1 e2 H :=
  destruct e1 as [i1 c1 u1 x1 p1 [a1 o1 s1] t1];
  destruct e2 as [i2 c2 u2 x2 p2 [a2 o2 s2] t2];
  unfold same_but_adjustments, clean_entry, set_energy_adjustments,
    set_correction in H;
  cbn in H; injection H as -> -> -> -> -> -> ->; reflexivity.

Lemma PotcarCorrection_blind self e1 e2 :
  same_but_adjustments e1 e2 ->
  PotcarCorrection_get_correction self e1 = PotcarCorrection_get_correction self e2.
Proof. intros H. blind_rule e1 e2 H. Qed.

Lemma GasCorrection_blind self e1 e2 :
  same_but_adjustments e1 e2 ->
  GasCorrection_get_correction self e1 = GasCorrection_get_correction self e2.
Proof. intros H. blind_rule e1 e2 H. Qed.

Lemma AnionCorrection_blind self e1 e2 :
  same_but_adjustments e1 e2 ->
  AnionCorrection_get_correction self e1 = AnionCorrection_get_correction self e2.
Proof. intros H. blind_rule e1 e2 H. Qed.

Lemma UCorrection_blind self e1 e2 :
  same_but_adjustments e1 e2 ->
  UCorrection_get_correction self e1 = UCorrection_get_correction self e2.
Proof. intros H. blind_rule e1 e2 H. Qed.

(** X29. None of the four rules reads [correction] or the Ledger: on two
    entries that differ in these only, every rule of
    [MaterialsProjectCompatibility] has the same outcome, and so has the
    rule set as a whole. *)
Theorem rules_ignore_adjustments
    (potcar : PotcarCorrection) (gas : GasCorrection)
    (anion : AnionCorrection) (u : UCorrection) (e1 e2 : Entry) :
  same_but_adjustments e1 e2 ->
  Forall (fun c => get_correction c e1 tt = get_correction c e2 tt)
         (corrections (MaterialsProjectCompatibility potcar gas anion u))
  /\ CorrectionsList_get_corrections_dict
       (MaterialsProjectCompatibility potcar gas anion u) e1 tt
     = CorrectionsList_get_corrections_dict
       (MaterialsProjectCompatibility potcar gas anion u) e2 tt.
Proof.
  intros H.
  assert (HF : Forall (fun c => get_correction c e1 tt = get_correction c e2 tt)
                 (corrections (MaterialsProjectCompatibility potcar gas anion u))).
  { cbn [corrections MaterialsProjectCompatibility].
    repeat constructor; cbn [get_correction PotcarCorrection_rule
      GasCorrection_rule AnionCorrection_rule UCorrection_rule].
    - by rewrite (PotcarCorrection_blind potcar e1 e2 H).
    - by rewrite (GasCorrection_blind gas e1 e2 H).
    - by rewrite (AnionCorrection_blind anion e1 e2 H).
    - by rewrite (UCorrection_blind u e1 e2 H). }
  split; [exact HF|].
  unfold CorrectionsList_get_corrections_dict.
  generalize (@nil (string * Z)).
  induction HF as [|c cs Hc _ IH]; intros acc; [reflexivity|].
  cbn [corrections_loop]. unfold bind. rewrite Hc.
  destruct (run_result (get_correction c e2 tt)) as [val|x]; [|reflexivity].
  cbn [fst snd]. rewrite !reader_state.
  destruct (negb (Z.eqb val 0)); cbn; by rewrite IH.
Qed.

Lemma rules_ignore_adjustments_witness :
  Forall (fun c => get_correction c entry_O4 tt
                   = get_correction c entry_O4_stored_b tt)
         (corrections
            (MaterialsProjectCompatibility potcar_hash gas_O2 anion_MP u_Advanced))
  /\ CorrectionsList_get_corrections_dict
       (MaterialsProjectCompatibility potcar_hash gas_O2 anion_MP u_Advanced)
       entry_O4 tt
     = CorrectionsList_get_corrections_dict
       (MaterialsProjectCompatibility potcar_hash gas_O2 anion_MP u_Advanced)
       entry_O4_stored_b tt.
Proof.
  apply (rules_ignore_adjustments potcar_hash gas_O2 anion_MP u_Advanced
           entry_O4 entry_O4_stored_b).
  reflexivity.
Defined.

(** ** The explanation adds up *)

Lemma Forall2_values_transport cs vs e1 e2 :
  (forall c, c ∈ cs -> get_correction c e1 tt = get_correction c e2 tt) ->
  Forall2 (fun c v => run_result (get_correction c e1 tt) = Ok v) cs vs ->
  Forall2 (fun c v => run_result (get_correction c e2 tt) = Ok v) cs vs.
Proof.
  intros Hb Hvs. induction Hvs as [|c v cs vs Hv Hvs IH]; constructor.
  - rewrite <- Hv. symmetry. f_equal. apply Hb. by left.
  - apply IH. intros c' Hc'. apply Hb. by right.
Qed.

Lemma filter_zip_keys (ks : list string) (vs : list Z) k :
  k ∈ (filter (fun kv : string * Z => kv.2 <> 0) (zip ks vs)).*1 -> k ∈ ks.
Proof.
  intros Hk. apply list_elem_of_fmap in Hk as ([k0 v0] & -> & Hin).
  apply list_elem_of_filter in Hin as [_ Hin]. cbn [fst].
  revert vs Hin. induction ks as [|k ks IH]; intros [|v vs] Hin;
    cbn [zip zip_with] in Hin; try by apply elem_of_nil in Hin.
  apply elem_of_cons in Hin as [[= -> ->]|Hin]; [by left|].
  right. by apply (IH vs).
Qed.

Lemma dict_get_values (ks : list string) : forall (vs : list Z),
  NoDup ks -> length ks = length vs ->
  (fun k => default 0 (dict_get k (filter (fun kv : string * Z => kv.2 <> 0)
                                          (zip ks vs)))) <$> ks = vs.
Proof.
  induction ks as [|k ks IH]; intros [|v vs] Hnd Hlen; try discriminate;
    [reflexivity|].
  apply NoDup_cons in Hnd as [Hk Hnd]. injection Hlen as Hlen.
  cbn [fmap list_fmap zip zip_with]. rewrite filter_cons. cbn [snd].
  destruct (decide (v <> 0)) as [Hv|Hv].
  - cbn [dict_get]. rewrite String.eqb_refl. cbn [default from_option id].
    f_equal. etrans; [|exact (IH vs Hnd Hlen)].
    apply Forall_fmap_ext, Forall_forall. intros k' Hk'. cbn [dict_get].
    destruct (String.eqb_spec k k') as [->|_]; [done|reflexivity].
  - assert (v = 0) as -> by lia.
    rewrite dict_get_None; [|intros Hin; by apply filter_zip_keys in Hin].
    cbn [default from_option id]. f_equal. by apply IH.
Qed.

Lemma total_filter_zip (ks : list string) : forall (vs : list Z),
  length ks = length vs ->
  total (filter (fun kv : string * Z => kv.2 <> 0) (zip ks vs))
  = foldr Z.add 0 vs.
Proof.
  induction ks as [|k ks IH]; intros [|v vs] Hlen; try discriminate;
    [reflexivity|].
  injection Hlen as Hlen. cbn [zip zip_with foldr]. rewrite filter_cons.
  cbn [snd]. destruct (decide (v <> 0)) as [Hv|Hv].
  - cbn [total foldr snd]. fold (total (filter (fun kv : string * Z => kv.2 <> 0)
                                             (zip ks vs))).
    by rewrite IH.
  - rewrite IH by done. lia.
Qed.

(** X30. The explanation adds up.  For an engine that cleans, with rules
    of distinct names that do not read [correction] or the Ledger and
    that return the values [vs] for the entry, [get_explanation_dict]
    returns an explanation whose records carry exactly these values, in
    the order of the rules, and whose corrected energy is the uncorrected
    energy of the entry plus their sum. *)
Theorem explanation_adds_up (self : CorrectionsList) (e : Entry) (vs : list Z) :
  cl_clean self = true ->
  NoDup (str <$> corrections self) ->
  (forall c e1 e2, c ∈ corrections self -> same_but_adjustments e1 e2 ->
     get_correction c e1 tt = get_correction c e2 tt) ->
  Forall2 (fun c v => run_result (get_correction c e tt) = Ok v)
          (corrections self) vs ->
  exists d,
    run_result (get_explanation_dict self e) = Ok d
    /\ exp_value <$> exp_corrections d = vs
    /\ exp_corrected_energy d
       = Some (uncorrected_energy e + foldr Z.add 0 vs).
Proof.
  intros Hc Hnd Hblind Hvs.
  set (corr := filter (fun kv : string * Z => kv.2 <> 0)
                      (zip (str <$> corrections self) vs)).
  assert (Hlen : length (str <$> corrections self) = length vs).
  { rewrite length_fmap. by apply Forall2_length in Hvs. }
  assert (Hread : forall e1, same_but_adjustments e e1 ->
            run_result (CorrectionsList_get_corrections_dict self e1 tt)
            = Ok corr).
  { intros e1 He1. unfold CorrectionsList_get_corrections_dict.
    rewrite (corrections_loop_values _ _ vs []); [reflexivity| |exact Hnd].
    apply (Forall2_values_transport _ _ e); [|exact Hvs].
    intros c Hin. by apply Hblind. }
  set (r := process_entry (as_Compatibility self) e).
  pose proof (process_entry_frame (as_Compatibility self) e) as Hfr.
  fold r in Hfr.
  assert (Ho : run_result r = Ok (Some (run_state r))
               /\ correction (run_state r) = total corr).
  { subst r.
    rewrite process_entry_result, process_entry_state, process_entry_outcome.
    unfold prepared. cbn [clean as_Compatibility class_name get_corrections_dict].
    rewrite Hc. cbv zeta.
    rewrite (validate_corrections_I1 _ (clean_entry_I1 e)).
    rewrite (Hread (clean_entry e)) by reflexivity.
    destruct (get_corrections_dict_dict_aux self (clean_entry e) corr
                (Hread (clean_entry e) eq_refl)) as [Hndc _].
    destruct (merge_all_fresh (cl_class_name self) corr (clean_entry e) Hndc)
      as (Hr & Hcorr & _); [reflexivity|].
    rewrite Hr. cbn [fst snd]. split; [reflexivity|].
    rewrite Hcorr. cbn. lia. }
  destruct Ho as [Hr Hcorr].
  eexists. split; [|split].
  - rewrite get_explanation_dict_result. fold r. rewrite Hr. cbv zeta.
    rewrite (Hread (run_state r)); [reflexivity|].
    unfold same_but_adjustments in *. by rewrite Hfr.
  - cbn [exp_corrections]. rewrite <- list_fmap_compose.
    etrans; [|exact (dict_get_values (str <$> corrections self) vs Hnd Hlen)].
    rewrite <- list_fmap_compose. reflexivity.
  - cbn [exp_corrected_energy]. f_equal. unfold energy. rewrite Hcorr.
    apply (f_equal uncorrected_energy) in Hfr. cbn in Hfr. rewrite Hfr.
    unfold corr. by rewrite total_filter_zip.
Qed.

Lemma explanation_adds_up_witness :
  exists d,
    run_result (get_explanation_dict gas_engine entry_O4) = Ok d
    /\ exp_value <$> exp_corrections d = [-7]
    /\ exp_corrected_energy d = Some (uncorrected_energy entry_O4 + (-7 + 0)).
Proof.
  apply (explanation_adds_up gas_engine entry_O4 [-7]).
  - reflexivity.
  - apply NoDup_singleton.
  - intros c e1 e2 Hin H. apply list_elem_of_singleton in Hin as ->.
    cbn [get_correction GasCorrection_rule].
    by rewrite (GasCorrection_blind gas_O2 e1 e2 H).
  - constructor; [|constructor]. vm_compute. reflexivity.
Defined.

(** * Invariant I1 in floating point *)




(** ** Sums in the order of the Ledger *)





(** ** Merging under the last source key of the Ledger *)









